(** * hwbench: BMC sensor normalisation (hwbench/environment/vendors/vendor.py)

    A shallow embedding of the generic controller of [vendor.py]: the metric
    value objects, the category enumerations, the aggregation reads
    [read_fans], [read_power_consumption], [read_power_supplies], the
    local-discovery parser [parse_cmd], [get_ip], the single-request fetch
    [get_redfish_url], and the one-time setup [Vendor.prepare].

    Conventions of the embedding.
    - A Python [str] is represented by its UTF-8 encoding, a Rocq [string]
      (a sequence of 8-bit characters); [bytes] are Rocq [string]s too, and
      [bytes.decode("utf-8")] is the check that the bytes are well-formed
      UTF-8.
    - A decoded JSON document is a [pyval].  Numbers are Python [int]s;
      JSON numbers with a fraction or an exponent are outside the model.
    - A Python [dict] whose iteration order is observable (the normalised
      readings) is an association list updated in place; the discovery
      mapping [self.bmc], which is only looked up, is a [gmap].
    - A call either returns, raises a Python exception, or ends the run
      through [h.fatal]: the [result] type. *)

From stdpp Require Import base list strings gmap pretty.
From Stdlib Require Import ZArith Ascii Lia.

Local Set Warnings "-register-all,-clear-no-such-hyp".
Local Open Scope string_scope.
Local Open Scope list_scope.
Local Open Scope Z_scope.

(** ** Outcomes of a call *)

Inductive exn : Type :=
| TypeError
| KeyError
| AttributeError
| IndexError
| ValueError
| UnicodeDecodeError
| UnboundLocalError
| ParsingError
| NoSectionError
| NoOptionError
| InterpolationSyntaxError
| JSONDecodeError
| RetriesExhaustedError
| BadRequestError
| InvalidCredentialsError
| OtherError.

(** What [h.fatal] is given to print. *)
Inductive fatal_msg : Type :=
| Msg (text : string)
| MsgNoSection (sections : list string)
| MsgExcType (e : exn).

Inductive result (A : Type) : Type :=
| Ok (a : A)
| Raise (e : exn)
| Fatal (m : fatal_msg).
Arguments Ok {A} a.
Arguments Raise {A} e.
Arguments Fatal {A} m.

Global Instance result_ret : MRet result := fun A a => Ok a.

Global Instance result_bind : MBind result := fun A B k r =>
  match r with
  | Ok a => k a
  | Raise e => Raise e
  | Fatal m => Fatal m
  end.

(** Modelled from the spec: [h.fatal] of [hwbench.utils.helpers], which is
    not part of the sources at hand.  The specification lists the
    conditions it is called on as fatal: the process aborts with a
    descriptive message, nothing is returned and no ordinary exception is
    raised. *)
Definition fatal {A : Type} (m : fatal_msg) : result A := Fatal m.

(** ** Python values *)

Inductive pyval : Type :=
| VNone
| VBool (b : bool)
| VInt (z : Z)
| VStr (s : string)
| VList (l : list pyval)
| VDict (d : list (string * pyval)).

(** [dict.get(k)] on an association list: the first binding of [k]. *)
Fixpoint assoc {V : Type} (d : list (string * V)) (k : string) : option V :=
  match d with
  | [] => None
  | (k', v) :: d' => if String.eqb k' k then Some v else assoc d' k
  end.

Definition bool_to_Z (b : bool) : Z := if b then 1 else 0.

(** Python [a == b] on decoded JSON values.  [bool] is a subclass of [int];
    lists compare element by element; dictionaries compare by size and by
    the value found under each key, whatever the order. *)
Fixpoint py_eq (a b : pyval) {struct a} : bool :=
  match a, b with
  | VNone, VNone => true
  | VBool x, VBool y => Bool.eqb x y
  | VBool x, VInt z => bool_to_Z x =? z
  | VInt z, VBool x => z =? bool_to_Z x
  | VInt x, VInt y => x =? y
  | VStr s, VStr t => String.eqb s t
  | VList l, VList m =>
      (fix go (l m : list pyval) {struct l} : bool :=
         match l, m with
         | [], [] => true
         | x :: l', y :: m' => py_eq x y && go l' m'
         | _, _ => false
         end) l m
  | VDict d, VDict e =>
      (length d =? length e)%nat &&
      (fix all (d : list (string * pyval)) {struct d} : bool :=
         match d with
         | [] => true
         | (k, v) :: d' =>
             match assoc e k with
             | Some w => py_eq v w
             | None => false
             end && all d'
         end) d
  | _, _ => false
  end.

(** Truth value of an object in a condition. *)
Definition truthy (v : pyval) : bool :=
  match v with
  | VNone => false
  | VBool b => b
  | VInt z => negb (z =? 0)
  | VStr s => negb (String.eqb s "")
  | VList l => match l with [] => false | _ => true end
  | VDict d => match d with [] => false | _ => true end
  end.

(** [v.get(k)]: only a dictionary has the method; a missing key gives
    [None]. *)
Definition py_get (v : pyval) (k : string) : result pyval :=
  match v with
  | VDict d => Ok (default VNone (assoc d k))
  | _ => Raise AttributeError
  end.

(** [v[k]] with a string subscript. *)
Definition py_getitem (v : pyval) (k : string) : result pyval :=
  match v with
  | VDict d => match assoc d k with
               | Some x => Ok x
               | None => Raise KeyError
               end
  | _ => Raise TypeError
  end.

(** ** Strings: code points in the UTF-8 representation *)

Definition code (c : ascii) : Z := Z.of_N (N_of_ascii c).

(** A byte of the form 10xxxxxx continues a multi-byte code point. *)
Definition is_cont (c : ascii) : bool := (128 <=? code c) && (code c <=? 191).

(** The characters of a [str], each with its continuation bytes. *)
Fixpoint utf8_chars_go (s : string) (cur : string) : list string :=
  match s with
  | "" => match cur with "" => [] | _ => [cur] end
  | String c s' =>
      if is_cont c then utf8_chars_go s' (cur +:+ String c "")
      else match cur with
           | "" => utf8_chars_go s' (String c "")
           | _ => cur :: utf8_chars_go s' (String c "")
           end
  end.

Definition utf8_chars (s : string) : list string := utf8_chars_go s "".

(** [for x in v]: the elements the loop visits. *)
Definition py_iter (v : pyval) : result (list pyval) :=
  match v with
  | VList l => Ok l
  | VStr s => Ok (VStr <$> utf8_chars s)
  | VDict d => Ok ((fun kv => VStr (fst kv)) <$> d)
  | _ => Raise TypeError
  end.

(** ** Dictionary keys

    Only hashable objects can be keys; among decoded JSON values these are
    [None], booleans, integers and strings. *)

Inductive hkey : Type :=
| KNone
| KBool (b : bool)
| KInt (z : Z)
| KStr (s : string).

Definition as_key (v : pyval) : result hkey :=
  match v with
  | VNone => Ok KNone
  | VBool b => Ok (KBool b)
  | VInt z => Ok (KInt z)
  | VStr s => Ok (KStr s)
  | VList _ | VDict _ => Raise TypeError
  end.

(** Two keys name the same slot when they are equal under [==] (their
    hashes then agree: [hash(True) == hash(1)]). *)
Definition key_eqb (a b : hkey) : bool :=
  match a, b with
  | KNone, KNone => true
  | KBool x, KBool y => Bool.eqb x y
  | KBool x, KInt z => bool_to_Z x =? z
  | KInt z, KBool x => z =? bool_to_Z x
  | KInt x, KInt y => x =? y
  | KStr s, KStr t => String.eqb s t
  | _, _ => false
  end.

(** An insertion-ordered [dict]: [d[k] = v] replaces the value of an
    existing key where it stands and appends a new key at the end. *)
Definition pydict (V : Type) : Type := list (hkey * V).

Fixpoint dict_set {V : Type} (d : pydict V) (k : hkey) (v : V) : pydict V :=
  match d with
  | [] => [(k, v)]
  | (k', v') :: d' =>
      if key_eqb k' k then (k', v) :: d' else (k', v') :: dict_set d' k v
  end.

Fixpoint dict_get {V : Type} (d : pydict V) (k : hkey) : option V :=
  match d with
  | [] => None
  | (k', v) :: d' => if key_eqb k' k then Some v else dict_get d' k
  end.

Definition dict_keys {V : Type} (d : pydict V) : list hkey := fst <$> d.

(** A [for] loop whose body updates the loop state or raises. *)
Fixpoint py_for {S A : Type} (xs : list A) (body : S -> A -> result S) (s : S)
  : result S :=
  match xs with
  | [] => Ok s
  | x :: xs' => s' ← body s x; py_for xs' body s'
  end.

(** ** [str.split()] without arguments

    The separator is any run of white space; leading and trailing white
    space gives no empty token.  White space is what [str.isspace] accepts:
    U+0009..U+000D, U+001C..U+0020, U+0085, U+00A0, U+1680,
    U+2000..U+200A, U+2028, U+2029, U+202F, U+205F, U+3000. *)

Definition head3 (s : string) : Z * Z * Z :=
  match s with
  | String a (String b (String c _)) => (code a, code b, code c)
  | String a (String b "") => (code a, code b, -1)
  | String a "" => (code a, -1, -1)
  | "" => (-1, -1, -1)
  end.

(** Number of bytes of the white-space character [s] starts with, 0 when it
    starts with none. *)
Definition ws_len (s : string) : nat :=
  let '(a, b, c) := head3 s in
  if ((9 <=? a) && (a <=? 13)) || ((28 <=? a) && (a <=? 32)) then 1%nat
  else if (a =? 194) && ((b =? 133) || (b =? 160)) then 2%nat
  else if (a =? 225) && (b =? 154) && (c =? 128) then 3%nat
  else if (a =? 226) && (b =? 128) &&
          (((128 <=? c) && (c <=? 138)) || (c =? 168) || (c =? 169) || (c =? 175))
       then 3%nat
  else if (a =? 226) && (b =? 129) && (c =? 159) then 3%nat
  else if (a =? 227) && (b =? 128) && (c =? 128) then 3%nat
  else 0%nat.

Definition flush (tok : string) : list string :=
  match tok with "" => [] | _ => [tok] end.

(** [skip] counts the bytes left of a white-space character being passed;
    [tok] is the token read so far. *)
Fixpoint split_go (s : string) (skip : nat) (tok : string) : list string :=
  match s with
  | "" => flush tok
  | String c s' =>
      match skip with
      | S k => split_go s' k tok
      | O =>
          match ws_len s with
          | O => split_go s' 0 (tok +:+ String c "")
          | S k => flush tok ++ split_go s' k ""
          end
      end
  end.

Definition str_split (s : string) : list string := split_go s 0 "".

(** [v.split()]: a method of [str] only. *)
Definition py_split (v : pyval) : result (list string) :=
  match v with
  | VStr s => Ok (str_split s)
  | _ => Raise AttributeError
  end.

(** [l[0]]. *)
Definition py_first (l : list string) : result string :=
  match l with
  | [] => Raise IndexError
  | x :: _ => Ok x
  end.

(** ** Category enumerations *)

Inductive ThermalContext : Type := INTAKE | CPU | MEMORY | SYSTEMBOARD | POWERSUPPLY.
Inductive FanContext : Type := FAN.
Inductive PowerContext : Type := POWER.

Definition ThermalContext_str (c : ThermalContext) : string :=
  match c with
  | INTAKE => "Intake"
  | CPU => "CPU"
  | MEMORY => "Memory"
  | SYSTEMBOARD => "SystemBoard"
  | POWERSUPPLY => "PowerSupply"
  end.

Definition FanContext_str (c : FanContext) : string :=
  match c with FAN => "Fan" end.

Definition PowerContext_str (c : PowerContext) : string :=
  match c with POWER => "Power" end.

(** ** Metrics *)

(** The name of a metric is annotated [str]; the objects that reach it are
    the hashable values read from a document and members of the category
    enumerations. *)
Inductive mname : Type :=
| NKey (k : hkey)
| NThermal (c : ThermalContext)
| NFan (c : FanContext)
| NPower (c : PowerContext).

(** [str(name)]. *)
Definition py_str (n : mname) : string :=
  match n with
  | NKey KNone => "None"
  | NKey (KBool true) => "True"
  | NKey (KBool false) => "False"
  | NKey (KInt z) => pretty z
  | NKey (KStr s) => s
  | NThermal c => ThermalContext_str c
  | NFan c => FanContext_str c
  | NPower c => PowerContext_str c
  end.

Inductive metric_class : Type := ClsMonitorMetric | ClsTemperature | ClsPower.

(** The attributes [name], [value] and [unit] of the object. *)
Record metric : Type := mk_metric {
  cls : metric_class;
  m_name : mname;
  m_value : pyval;
  m_unit : pyval
}.

Definition MonitorMetric (n : mname) (v u : pyval) : metric :=
  mk_metric ClsMonitorMetric n v u.

Definition Temperature (n : mname) (v : pyval) : metric :=
  mk_metric ClsTemperature n v (VStr "Celsius").

Definition Power (n : mname) (v : pyval) : metric :=
  mk_metric ClsPower n v (VStr "Watts").

Definition get_name (m : metric) : mname := m_name m.
Definition get_value (m : metric) : pyval := m_value m.
Definition get_unit (m : metric) : pyval := m_unit m.

(** [MonitorMetric.__eq__]. *)
Definition metric_eq (self compared_metric : metric) : bool :=
  String.eqb (py_str (m_name self)) (py_str (get_name compared_metric))
  && py_eq (m_value self) (get_value compared_metric)
  && py_eq (m_unit self) (get_unit compared_metric).

(** ** The controller and its aggregation reads *)

(** The two documents a controller fetches; vendors override them. *)
Class Controller : Type := {
  get_thermal : result pyval;
  get_power : result pyval
}.

(** The generic [BMC] returns an empty dictionary for both. *)
Definition BMC : Controller :=
  {| get_thermal := Ok (VDict []); get_power := Ok (VDict []) |}.

(** A normalised reading: category string to (sensor label to metric). *)
Definition reading : Type := list (string * pydict metric).

(** [BMC.read_thermals]. *)
Definition read_thermals : result reading := Ok [].

(** Body of the loop of [read_fans].  The metric is built from a second
    read of [f["Name"]], which gives the label again, before the label is
    hashed for the store; an unhashable label cannot be stored, and the
    metric built from it is dropped with the [TypeError]. *)
Definition read_fans_body (fans : pydict metric) (f : pyval)
  : result (pydict metric) :=
  label ← py_getitem f "Name";
  _ ← py_getitem f "Name";
  r ← py_getitem f "Reading";
  u ← py_getitem f "ReadingUnits";
  k ← as_key label;
  Ok (dict_set fans k (MonitorMetric (NKey k) r u)).

Definition read_fans `{Controller} : result reading :=
  doc ← get_thermal;
  it ← py_get doc "Fans";
  fs ← py_iter it;
  fans ← py_for fs read_fans_body [];
  Ok [(FanContext_str FAN, fans)].

(** Body of the loop of [read_power_consumption]. *)
Definition read_power_consumption_body (chassis : pydict metric) (power : pyval)
  : result (pydict metric) :=
  w ← py_getitem power "PowerConsumedWatts";
  Ok (dict_set chassis (KStr "Chassis") (Power (NKey (KStr "Chassis")) w)).

Definition read_power_consumption `{Controller} : result reading :=
  doc ← get_power;
  it ← py_get doc "PowerControl";
  ps ← py_iter it;
  chassis ← py_for ps read_power_consumption_body [];
  Ok [(PowerContext_str POWER, chassis)].

(** Body of the loop of [read_power_supplies]: the right-hand side is
    evaluated first, then the subscript of the target. *)
Definition read_power_supplies_body (psus : pydict metric) (psu : pyval)
  : result (pydict metric) :=
  n ← py_getitem psu "Name";
  toks ← py_split n;
  tok ← py_first toks;
  w ← py_getitem psu "PowerInputWatts";
  label ← py_getitem psu "Name";
  k ← as_key label;
  Ok (dict_set psus k (Power (NKey (KStr tok)) w)).

Definition read_power_supplies `{Controller} : result reading :=
  doc ← get_power;
  it ← py_get doc "PowerSupplies";
  ps ← py_iter it;
  psus ← py_for ps read_power_supplies_body [];
  Ok [(PowerContext_str POWER, psus)].

(** ** Local discovery: [parse_cmd] and [get_ip] *)

(** [stdout.split(b"\n")]. *)
Fixpoint bytes_split_nl (s : string) : list string :=
  match s with
  | "" => [""]
  | String c s' =>
      if code c =? 10 then "" :: bytes_split_nl s'
      else match bytes_split_nl s' with
           | r :: rs => String c r :: rs
           | [] => [String c ""]
           end
  end.

(** What follows [p] when [s] starts with [p]. *)
Fixpoint after_prefix (p s : string) : option string :=
  match p, s with
  | "", _ => Some s
  | String a p', String b s' =>
      if Ascii.eqb a b then after_prefix p' s' else None
  | String _ _, "" => None
  end.

(** [sep in s]. *)
Fixpoint bytes_contains (sep s : string) : bool :=
  match after_prefix sep s with
  | Some _ => true
  | None => match s with
            | "" => false
            | String _ s' => bytes_contains sep s'
            end
  end.

(** [s.split(sep, 1)]: cut at the first occurrence of [sep]. *)
Fixpoint bytes_split1 (sep s : string) : list string :=
  match after_prefix sep s with
  | Some rest => [""; rest]
  | None => match s with
            | "" => [""]
            | String c s' =>
                match bytes_split1 sep s' with
                | k :: r => String c k :: r
                | [] => [String c ""]
                end
            end
  end.

(** White space of [bytes.strip()]: space, tab, newline, return, vertical
    tab, form feed. *)
Definition is_bspace (c : ascii) : bool :=
  ((9 <=? code c) && (code c <=? 13)) || (code c =? 32).

Fixpoint lstrip (s : string) : string :=
  match s with
  | "" => ""
  | String c s' => if is_bspace c then lstrip s' else s
  end.

Fixpoint rstrip (s : string) : string :=
  match s with
  | "" => ""
  | String c s' =>
      match rstrip s' with
      | "" => if is_bspace c then "" else String c ""
      | r => String c r
      end
  end.

Definition strip (s : string) : string := rstrip (lstrip s).

(** Well-formed UTF-8: [need] holds the ranges the next continuation bytes
    must fall in (no overlong form, no surrogate, nothing above U+10FFFF). *)
Fixpoint utf8_ok (s : string) (need : list (Z * Z)) : bool :=
  match s with
  | "" => match need with [] => true | _ => false end
  | String c s' =>
      let n := code c in
      match need with
      | (lo, hi) :: need' => (lo <=? n) && (n <=? hi) && utf8_ok s' need'
      | [] =>
          if n <=? 127 then utf8_ok s' []
          else if (194 <=? n) && (n <=? 223) then utf8_ok s' [(128, 191)]
          else if n =? 224 then utf8_ok s' [(160, 191); (128, 191)]
          else if n =? 237 then utf8_ok s' [(128, 159); (128, 191)]
          else if (225 <=? n) && (n <=? 239)
               then utf8_ok s' [(128, 191); (128, 191)]
          else if n =? 240 then utf8_ok s' [(144, 191); (128, 191); (128, 191)]
          else if (241 <=? n) && (n <=? 243)
               then utf8_ok s' [(128, 191); (128, 191); (128, 191)]
          else if n =? 244 then utf8_ok s' [(128, 143); (128, 191); (128, 191)]
          else false
      end
  end.

(** [b.decode("utf-8")]. *)
Definition decode (b : string) : result string :=
  if utf8_ok b [] then Ok b else Raise UnicodeDecodeError.

(** One turn of the loop of [parse_cmd] on the mapping [self.bmc].  The
    value is decoded before the key. *)
Definition parse_row (bmc : gmap string string) (row : string)
  : result (gmap string string) :=
  if bytes_contains ": " row then
    match bytes_split1 ": " row with
    | [key; value] =>
        if negb (String.eqb (strip key) "") then
          v ← decode (strip value);
          k ← decode (strip key);
          Ok (<[k := v]> bmc)
        else Ok bmc
    | _ => Raise ValueError
    end
  else Ok bmc.

(** The loop: the mapping is updated in place, so the rows handled before
    an exception stay in it. *)
Fixpoint parse_rows (rows : list string) (bmc : gmap string string)
  : gmap string string * result unit :=
  match rows with
  | [] => (bmc, Ok tt)
  | row :: rows' =>
      match parse_row bmc row with
      | Ok bmc' => parse_rows rows' bmc'
      | Raise e => (bmc, Raise e)
      | Fatal m => (bmc, Fatal m)
      end
  end.

(** [parse_cmd]: the state of [self.bmc] after the call, and the outcome of
    the call (the same mapping when it returns). *)
Definition parse_cmd (stdout _stderr : string) (bmc : gmap string string)
  : gmap string string * result (gmap string string) :=
  let '(bmc', r) := parse_rows (bytes_split_nl stdout) bmc in
  (bmc', _ ← r; Ok bmc').

Definition run_cmd : list string := ["ipmitool"; "lan"; "print"].

(** [get_ip]: were [h.fatal] to return, [ip] would be unbound at the
    [return]. *)
Definition get_ip (bmc : gmap string string) : result string :=
  match bmc !! "IP Address" with
  | Some ip => Ok ip
  | None => _ ← fatal (A:=unit) (Msg "Cannot detect BMC ip");
            Raise UnboundLocalError
  end.

(** ** The single-request fetch [get_redfish_url] *)

(** [x in v] for a string [x]. *)
Definition py_in (x : string) (v : pyval) : result bool :=
  match v with
  | VDict d => Ok (bool_decide (is_Some (assoc d x)))
  | VList l => Ok (existsb (py_eq (VStr x)) l)
  | VStr s => Ok (bytes_contains x s)
  | _ => Raise TypeError
  end.

Inductive log_record : Type :=
| LogError (url : string) (doc : pyval).

(** The [try] block.  The function assigns to [redfish], which makes the
    name a local variable of the whole function: the first component is
    that local, [None] until the assignment has run.  [fetch] is what
    [self.redfish_obj.get(url, None).dict] does, [None] when
    [self.redfish_obj] is [None]. *)
Definition get_redfish_url_try (fetch : option (string -> result pyval))
    (url : string) : option pyval * result pyval * list log_record :=
  match fetch with
  | None => (None, Raise AttributeError, [])
  | Some get =>
      match get url with
      | Raise e => (None, Raise e, [])
      | Fatal m => (None, Fatal m, [])
      | Ok redfish =>
          if truthy redfish then
            match py_in "error" redfish with
            | Ok true => (Some redfish, Ok (VDict []), [LogError url redfish])
            | Ok false => (Some redfish, Ok redfish, [])
            | Raise e => (Some redfish, Raise e, [])
            | Fatal m => (Some redfish, Fatal m, [])
            end
          else (Some redfish, Ok redfish, [])
      end
  end.

(** The [except] clauses.  To match the exception, Python first evaluates
    [redfish.rest.v1.RetriesExhaustedError], where [redfish] is the local
    variable: unbound, the evaluation raises [UnboundLocalError]; bound to
    a decoded document, it has no attribute [rest]. *)
Definition get_redfish_url (fetch : option (string -> result pyval))
    (url : string) : result pyval * list log_record :=
  match get_redfish_url_try fetch url with
  | (_, Ok v, log) => (Ok v, log)
  | (_, Fatal m, log) => (Fatal m, log)
  | (None, Raise _, log) => (Raise UnboundLocalError, log)
  | (Some _, Raise _, log) => (Raise AttributeError, log)
  end.

(** ** Connection setup: [connect_redfish] and [Vendor.prepare] *)

(** A remote session as built by [redfish.redfish_client]; [sess_id]
    tells one client object from another. *)
Record session : Type := mk_session {
  sess_id : nat;
  base_url : string;
  sess_username : option string;
  sess_password : option string
}.

(** What the collaborators answer.  The command runner gives the output
    of the local tool.  The configuration parser ([configparser], a library
    outside the repository) gives: the exception of
    [config_file.read("config.cfg")] if it raises one (it returns for a
    missing file), the list [config_file.sections()], and for a section and
    an option what [config_file.get] does, an exception ([NoSectionError],
    [NoOptionError], [InterpolationSyntaxError] for a stray '%', ...) or
    the value, interpolated and with the defaults applied, which is [None]
    for an option without a value.  The remote controller may fail at
    client construction and at login. *)
Record world : Type := mk_world {
  ipmitool_stdout : string;
  ipmitool_stderr : string;
  config_read_fails : option exn;
  config_sections : list string;
  config_value : string -> string -> exn + option string;
  client_new_fails : string -> option exn;
  login_fails : string -> option exn
}.

Inductive event : Type :=
| EvNewBMC
| EvRun (cmd : list string)
| EvReadConfig
| EvNewClient (s : session)
| EvLogin (s : session).

(** The attributes of a [BMC] object. *)
Record bmc_obj : Type := mk_bmc {
  bmc : gmap string string;
  redfish_obj : option session
}.

(** A [Vendor] object with what has happened outside of it so far. *)
Record vendor_obj : Type := mk_vendor {
  vendor_name : string;
  vendor_bmc : option bmc_obj;
  trace : list event;
  next_id : nat
}.

Definition log_event (e : event) (self : vendor_obj) : vendor_obj :=
  mk_vendor (vendor_name self) (vendor_bmc self) (trace self ++ [e]) (next_id self).

Definition set_bmc (b : bmc_obj) (self : vendor_obj) : vendor_obj :=
  mk_vendor (vendor_name self) (Some b) (trace self) (next_id self).

(** [config_file.read("config.cfg")]. *)
Definition config_read (w : world) : result unit :=
  match config_read_fails w with
  | Some e => Raise e
  | None => Ok tt
  end.

(** [config_file.get(section, option)]. *)
Definition config_get (w : world) (section opt : string)
  : result (option string) :=
  match config_value w section opt with
  | inl e => Raise e
  | inr v => Ok v
  end.

(** The [for section in sections] loop with its [break]. *)
Fixpoint find_section (w : world) (sections : list string) : string :=
  match sections with
  | [] => ""
  | section :: rest =>
      if bool_decide (section ∈ config_sections w) then section
      else find_section w rest
  end.

(** The [except] clauses of [connect_redfish]. *)
Definition login_handler (server_url : string) (e : exn) : fatal_msg :=
  match e with
  | JSONDecodeError => Msg ("JSONDecodeError on " +:+ server_url)
  | RetriesExhaustedError => Msg ("RetriesExhaustedError on " +:+ server_url)
  | BadRequestError => Msg ("BadRequestError on " +:+ server_url)
  | InvalidCredentialsError => Msg ("Invalid credentials for " +:+ server_url)
  | _ => MsgExcType e
  end.

(** [BMC.connect_redfish], run on the controller [b] of [self].  The
    reading of the configuration and the two [get] calls stand before the
    [try], so their exceptions leave the method as they are. *)
Definition connect_redfish (w : world) (b : bmc_obj) (self : vendor_obj)
  : result vendor_obj :=
  let self := log_event EvReadConfig self in
  _ ← config_read w;
  let sections := [vendor_name self; "default"] in
  let section_name := find_section w sections in
  _ ← (if String.eqb section_name "" then fatal (MsgNoSection sections)
       else Ok tt);
  bmc_username ← config_get w section_name "username";
  bmc_password ← config_get w section_name "password";
  server_url ← get_ip (bmc b);
  let server_url :=
    if negb (bytes_contains "https://" server_url)
    then "https://" +:+ server_url else server_url in
  match client_new_fails w server_url with
  | Some e => fatal (login_handler server_url e)
  | None =>
      let client := mk_session (next_id self) server_url bmc_username bmc_password in
      let b := mk_bmc (bmc b) (Some client) in
      let self :=
        mk_vendor (vendor_name self) (Some b)
                  (trace self ++ [EvNewClient client]) (S (next_id self)) in
      let self := log_event (EvLogin client) self in
      match login_fails w server_url with
      | Some e => fatal (login_handler server_url e)
      | None => Ok self
      end
  end.

(** Modelled from the spec: [External.run] of [hwbench.utils.external],
    which is not part of the sources at hand.  The specification describes
    it as the local-tool discovery: the command of [run_cmd] is executed by
    the command runner and its output is handed to [parse_cmd]. *)
Definition run (w : world) (b : bmc_obj) (self : vendor_obj)
  : result (bmc_obj * vendor_obj) :=
  let self := log_event (EvRun run_cmd) self in
  let '(m, r) := parse_cmd (ipmitool_stdout w) (ipmitool_stderr w) (bmc b) in
  _ ← r;
  Ok (mk_bmc m (redfish_obj b), self).

(** [BMC.__init__]. *)
Definition new_BMC : bmc_obj := mk_bmc ∅ None.

(** [Vendor.prepare].  The class [BMC] defines neither [__bool__] nor
    [__len__], and its base class is taken not to either, so [not self.bmc]
    holds only while the attribute is [None]. *)
Definition prepare (w : world) (self : vendor_obj) : result vendor_obj :=
  '(b, self) ←
    match vendor_bmc self with
    | None =>
        let self := set_bmc new_BMC (log_event EvNewBMC self) in
        '(b, self) ← run w new_BMC self;
        Ok (b, set_bmc b self)
    | Some b => Ok (b, self)
    end;
  connect_redfish w b self.

(** [Vendor.get_bmc]. *)
Definition get_bmc (self : vendor_obj) : option bmc_obj := vendor_bmc self.

(** [Vendor.__init__]. *)
Definition new_Vendor (name : string) : vendor_obj := mk_vendor name None [] 0.

(** ** Vocabulary of the properties *)

(** The fields [read_fans] reads from an entry with a string label. *)
Definition fan_fields (f : pyval) : option (string * pyval * pyval) :=
  match py_getitem f "Name", py_getitem f "Reading", py_getitem f "ReadingUnits" with
  | Ok (VStr n), Ok r, Ok u => Some (n, r, u)
  | _, _, _ => None
  end.

(** The label of a fan entry, when it is a string. *)
Definition fan_label (f : pyval) : option string :=
  match py_getitem f "Name" with
  | Ok (VStr n) => Some n
  | _ => None
  end.

(** The fields [read_power_supplies] reads from an entry whose name is a
    string. *)
Definition psu_fields (psu : pyval) : option (string * pyval) :=
  match py_getitem psu "Name", py_getitem psu "PowerInputWatts" with
  | Ok (VStr n), Ok w => Some (n, w)
  | _, _ => None
  end.

(** The full name of a power-supply entry, when it is a string. *)
Definition psu_label (psu : pyval) : option string :=
  match py_getitem psu "Name" with
  | Ok (VStr n) => Some n
  | _ => None
  end.

(** The field [read_power_consumption] reads from a control entry. *)
Definition consumed_watts (power : pyval) : option pyval :=
  match py_getitem power "PowerConsumedWatts" with
  | Ok w => Some w
  | _ => None
  end.

(** Every character of [s] is white space for [str.split()]. *)
Fixpoint only_space_go (s : string) (skip : nat) : bool :=
  match s with
  | "" => true
  | String _ s' =>
      match skip with
      | S k => only_space_go s' k
      | O => match ws_len s with
             | O => false
             | S k => only_space_go s' k
             end
      end
  end.

(** [s] contains at least one character that is not white space. *)
Definition has_nonspace (s : string) : bool := negb (only_space_go s 0).

(** The first white-space-delimited token of [s], if there is one. *)
Definition first_token (s : string) : option string := head (str_split s).



(** The metric [read_power_consumption] stores under "Chassis". *)
Definition chassis_metric (w : pyval) : metric :=
  mk_metric ClsPower (NKey (KStr "Chassis")) w (VStr "Watts").

(** The integer a numeric key stands for. *)
Definition key_norm (k : hkey) : hkey :=
  match k with
  | KBool b => KInt (bool_to_Z b)
  | _ => k
  end.

(** What the two loops store for a list of well-formed entries. *)
Definition put (d : pydict metric) (item : string * metric) : pydict metric :=
  dict_set d (KStr item.1) item.2.

(** What the loop of [read_fans] stores, entry by entry. *)
Definition fan_stored (f : pyval) (it : string * metric) : Prop :=
  ∃ r u, fan_fields f = Some (it.1, r, u) ∧
         it.2 = MonitorMetric (NKey (KStr it.1)) r u.

(** What the loop of [read_power_supplies] stores, entry by entry. *)
Definition psu_stored (p : pyval) (it : string * metric) : Prop :=
  ∃ w tok, psu_fields p = Some (it.1, w) ∧ first_token it.1 = Some tok ∧
           it.2 = Power (NKey (KStr tok)) w.

(** The session of the controller of a vendor, if both exist. *)
Definition current_session (self : vendor_obj) : option session :=
  b ← vendor_bmc self; redfish_obj b.

(** ** Sample inputs *)

Definition with_thermal (doc : pyval) : Controller :=
  {| get_thermal := Ok doc; get_power := Ok (VDict []) |}.

Definition with_power (doc : pyval) : Controller :=
  {| get_thermal := Ok (VDict []); get_power := Ok doc |}.

Definition psu (n : string) (w : Z) : pyval :=
  VDict [("Name", VStr n); ("PowerInputWatts", VInt w)].

Definition fan (n : string) (r : Z) : pyval :=
  VDict [("Name", VStr n); ("Reading", VInt r); ("ReadingUnits", VStr "Percent")].

Definition control (w : Z) : pyval :=
  VDict [("PowerConsumedWatts", VInt w)].

Definition two_psu_1 : pyval :=
  VDict [("PowerSupplies", VList [psu "PSU 1" 42; psu "PSU 1" 50])].

Definition two_fan_1 : pyval :=
  VDict [("Fans", VList [fan "Fan 1" 47; fan "Fan 1" 0])].

Definition lan_print : string :=
  "Set in Progress         : Set Complete
IP Address Source       : Static Address
IP Address              : 10.0.0.1
   : dropped
no separator here
IP Address              : 10.0.0.2
".

(** The answers of the parser for a configuration given by its sections
    and options, when no value needs interpolation and there is no
    [DEFAULT] section. *)
Definition plain_value (cfg : list (string * list (string * option string)))
    (section opt : string) : exn + option string :=
  match assoc cfg section with
  | None => inl NoSectionError
  | Some opts => match assoc opts opt with
                 | Some v => inr v
                 | None => inl NoOptionError
                 end
  end.

Definition plain_world (stdout : string)
    (cfg : list (string * list (string * option string)))
    (new_fails login_fails : string -> option exn) : world :=
  mk_world stdout "" None (fst <$> cfg) (plain_value cfg) new_fails login_fails.

Definition lab_world : world :=
  plain_world "IP Address              : 10.0.0.1"
    [("default", [("username", Some "admin"); ("password", Some "secret")])]
    (fun _ => None) (fun _ => None).

Definition first_session : session :=
  mk_session 0 "https://10.0.0.1" (Some "admin") (Some "secret").

Definition second_session : session :=
  mk_session 1 "https://10.0.0.1" (Some "admin") (Some "secret").

(** The vendor after a first [prepare] in [lab_world]. *)
Definition hpe_prepared : vendor_obj :=
  mk_vendor "Hpe"
    (Some (mk_bmc {["IP Address" := "10.0.0.1"]} (Some first_session)))
    [EvNewBMC; EvRun run_cmd; EvReadConfig;
     EvNewClient first_session; EvLogin first_session]
    1.

(** ** The version of the local tool: [parse_version] *)

Definition run_cmd_version : list string := ["ipmitool"; "-V"].

(** The [name] property of [BMC]. *)
Definition BMC_name : string := "ipmitool-lan-print".

(** [stdout.split()] on [bytes]: runs of the white space of [bytes.strip()]
    separate the tokens, and there is no empty token. *)
Fixpoint bytes_split_go (s : string) (tok : string) : list string :=
  match s with
  | "" => flush tok
  | String c s' =>
      if is_bspace c then flush tok ++ bytes_split_go s' ""
      else bytes_split_go s' (tok +:+ String c "")
  end.

Definition bytes_split (s : string) : list string := bytes_split_go s "".

(** [parse_version]: the third token, which is also stored in
    [self.version]. *)
Definition parse_version (stdout _stderr : string) : result string :=
  match bytes_split stdout !! 2%nat with
  | Some version => Ok version
  | None => Raise IndexError
  end.

(** ** Further vocabulary *)

(** No character of [s] is white space for [bytes.split()]. *)
Fixpoint no_bspace (s : string) : bool :=
  match s with
  | "" => true
  | String c s' => negb (is_bspace c) && no_bspace s'
  end.

(** No character of [s] is white space for [str.split()]. *)
Fixpoint no_space (s : string) : bool :=
  match s with
  | "" => true
  | String _ s' => match ws_len s with O => no_space s' | S _ => false end
  end.

(** The binding a row of the discovery output asks for: its stripped key
    and its stripped value, when the row has the separator and the stripped
    key is not empty. *)
Definition row_kv (row : string) : option (string * string) :=
  if bytes_contains ": " row then
    match bytes_split1 ": " row with
    | [key; value] =>
        if negb (String.eqb (strip key) "") then Some (strip key, strip value)
        else None
    | _ => None
    end
  else None.

(** The keys of a dictionary are pairwise different under [==]. *)
Fixpoint distinct_keys {V : Type} (d : pydict V) : Prop :=
  match d with
  | [] => True
  | (k, _) :: d' => dict_get d' k = None ∧ distinct_keys d'
  end.

(** A value that is not a container. *)
Definition is_scalar (v : pyval) : bool :=
  match v with
  | VList _ | VDict _ => false
  | _ => true
  end.

(** An entry [read_fans] can store: the three fields are there and the
    label can be hashed. *)
Definition fan_ok (f : pyval) : bool :=
  match py_getitem f "Name", py_getitem f "Reading", py_getitem f "ReadingUnits" with
  | Ok label, Ok _, Ok _ => match as_key label with Ok _ => true | _ => false end
  | _, _, _ => false
  end.

(** [n] calls of [prepare] in a row. *)
Fixpoint prepare_times (w : world) (n : nat) (self : vendor_obj)
  : result vendor_obj :=
  match n with
  | O => Ok self
  | S n' => self' ← prepare w self; prepare_times w n' self'
  end.

(** What a row does to the mapping, whatever the mapping: nothing, one
    binding, or an exception. *)
Definition row_binding (row : string) : result (option (string * string)) :=
  if bytes_contains ": " row then
    match bytes_split1 ": " row with
    | [key; value] =>
        if negb (String.eqb (strip key) "") then
          v ← decode (strip value);
          k ← decode (strip key);
          Ok (Some (k, v))
        else Ok None
    | _ => Raise ValueError
    end
  else Ok None.

(** The bindings of the rows up to the first row that raises, and how the
    loop ends. *)
Fixpoint handled (rows : list string) : list (string * string) * result unit :=
  match rows with
  | [] => ([], Ok tt)
  | row :: rows' =>
      match row_binding row with
      | Ok b => (option_list b ++ (handled rows').1, (handled rows').2)
      | Raise e => ([], Raise e)
      | Fatal m => ([], Fatal m)
      end
  end.

(** Bindings stored one after the other. *)
Definition store_all (kvs : list (string * string)) (m : gmap string string)
  : gmap string string :=
  foldl (fun m kv => <[kv.1 := kv.2]> m) m kvs.

(** Every byte of [s] is below 128. *)
Fixpoint is_ascii (s : string) : bool :=
  match s with
  | "" => true
  | String c s' => (code c <=? 127) && is_ascii s'
  end.

(** * Properties *)

(** ** Loops and dictionaries *)

Lemma py_for_app {S A : Type} (body : S -> A -> result S) (xs ys : list A) (s : S) :
  py_for (xs ++ ys) body s = (s' ← py_for xs body s; py_for ys body s').
Proof.
  revert s. induction xs as [|x xs IH]; intros s; simpl; [done|].
  destruct (body s x); simpl; auto.
Qed.

(** A loop whose body never raises on the entries it visits is a fold. *)
Lemma py_for_fold {S A : Type} (body : S -> A -> result S) (step : S -> A -> S)
    (xs : list A) :
  Forall (fun x => ∀ s, body s x = Ok (step s x)) xs ->
  ∀ s, py_for xs body s = Ok (foldl step s xs).
Proof.
  induction 1 as [|x xs Hx _ IH]; intros s; simpl; [done|].
  rewrite Hx. simpl. apply IH.
Qed.

(** ** C1: [read_fans] on a document without fans *)

Lemma read_fans_unfold `{Controller} doc :
  get_thermal = Ok doc ->
  read_fans =
    (it ← py_get doc "Fans"; fs ← py_iter it;
     fans ← py_for fs read_fans_body []; Ok [(FanContext_str FAN, fans)]).
Proof. intros E. unfold read_fans. rewrite E. reflexivity. Qed.

(** C1.  For a thermal document without a "Fans" key, [.get("Fans")] gives
    [None] and the [for] loop over it raises [TypeError]: [read_fans] does
    not return [{"Fan": {}}].  With an empty "Fans" list it does. *)
Theorem read_fans_without_fans (C : Controller) (d : list (string * pyval)) :
  get_thermal = Ok (VDict d) ->
  (assoc d "Fans" = None -> read_fans = Raise TypeError) ∧
  (assoc d "Fans" = Some (VList []) -> read_fans = Ok [("Fan", [])]).
Proof.
  intros E. rewrite (read_fans_unfold _ E). simpl.
  split; intros ->; reflexivity.
Qed.

Lemma read_fans_without_fans_witness :
  @read_fans BMC = Raise TypeError ∧
  @read_fans (with_thermal (VDict [("Fans", VList [])])) = Ok [("Fan", [])].
Proof.
  split.
  - apply (read_fans_without_fans BMC []); reflexivity.
  - apply (read_fans_without_fans (with_thermal (VDict [("Fans", VList [])]))
             [("Fans", VList [])]); reflexivity.
Defined.

(** ** C4: [read_power_consumption] *)

Lemma read_power_consumption_unfold `{Controller} doc :
  get_power = Ok doc ->
  read_power_consumption =
    (it ← py_get doc "PowerControl"; ps ← py_iter it;
     chassis ← py_for ps read_power_consumption_body [];
     Ok [(PowerContext_str POWER, chassis)]).
Proof. intros E. unfold read_power_consumption. rewrite E. reflexivity. Qed.

Lemma consumption_body_step chassis power w :
  consumed_watts power = Some w ->
  read_power_consumption_body chassis power
  = Ok (dict_set chassis (KStr "Chassis") (chassis_metric w)).
Proof.
  unfold consumed_watts, read_power_consumption_body. intros E.
  destruct (py_getitem power "PowerConsumedWatts"); simplify_eq. reflexivity.
Qed.

(** Whatever the loop starts from among the two shapes the mapping can have,
    it ends with the single key "Chassis" bound to the last entry. *)
Lemma consumption_loop ps :
  Forall (fun p => is_Some (consumed_watts p)) ps ->
  ∀ chassis,
    (chassis = [] ∨ ∃ w0, chassis = [(KStr "Chassis", chassis_metric w0)]) ->
    ∃ out, py_for ps read_power_consumption_body chassis = Ok out ∧
      match last ps with
      | None => out = chassis
      | Some p => ∃ w, consumed_watts p = Some w ∧
                       out = [(KStr "Chassis", chassis_metric w)]
      end.
Proof.
  induction 1 as [|p ps [w Hw] _ IH]; intros chassis Hc; simpl.
  - eauto.
  - rewrite (consumption_body_step _ _ _ Hw). simpl.
    set (c1 := dict_set chassis (KStr "Chassis") (chassis_metric w)).
    assert (Hc1 : c1 = [(KStr "Chassis", chassis_metric w)]).
    { subst c1. destruct Hc as [-> | [w0 ->]]; reflexivity. }
    destruct (IH c1) as (out & Hout & Hlast); [eauto|].
    exists out. split; [exact Hout|].
    rewrite last_cons. destruct (last ps) as [q|]; [exact Hlast|].
    exists w. split; [exact Hw|]. congruence.
Qed.

(** C4.  With every control entry carrying "PowerConsumedWatts",
    [read_power_consumption] returns [{"Power": {}}] for an empty
    "PowerControl" list, and otherwise "Power" holds the single key
    "Chassis" bound to a metric of class Power whose name is "Chassis",
    whose unit is "Watts" and whose value is the "PowerConsumedWatts" of
    the last control entry. *)
Theorem read_power_consumption_last_wins (C : Controller)
    (d : list (string * pyval)) (ps : list pyval) :
  get_power = Ok (VDict d) ->
  assoc d "PowerControl" = Some (VList ps) ->
  Forall (fun p => ∃ w, py_getitem p "PowerConsumedWatts" = Ok w) ps ->
  (ps = [] -> read_power_consumption = Ok [("Power", [])]) ∧
  (∀ p, last ps = Some p ->
     ∃ w m, py_getitem p "PowerConsumedWatts" = Ok w ∧
       read_power_consumption = Ok [("Power", [(KStr "Chassis", m)])] ∧
       m = mk_metric ClsPower (NKey (KStr "Chassis")) w (VStr "Watts") ∧
       cls m = ClsPower ∧ get_name m = NKey (KStr "Chassis") ∧
       get_value m = w ∧ get_unit m = VStr "Watts").
Proof.
  intros E Hd Hps. rewrite (read_power_consumption_unfold _ E). simpl.
  rewrite Hd. simpl.
  assert (Hps' : Forall (fun p => is_Some (consumed_watts p)) ps).
  { eapply Forall_impl; [exact Hps|]. intros p [w Hw].
    unfold consumed_watts. rewrite Hw. eauto. }
  destruct (consumption_loop ps Hps' []) as (out & Hout & Hlast); [by left|].
  rewrite Hout. simpl. split.
  - intros ->. simpl in Hlast. by subst out.
  - intros p Hp. rewrite Hp in Hlast. destruct Hlast as (w & Hw & ->).
    exists w, (mk_metric ClsPower (NKey (KStr "Chassis")) w (VStr "Watts")).
    split; [|done]. unfold consumed_watts in Hw.
    destruct (py_getitem p "PowerConsumedWatts"); congruence.
Qed.

Lemma read_power_consumption_last_wins_witness :
  @read_power_consumption (with_power (VDict [("PowerControl", VList [control 100; control 250])]))
  = Ok [("Power",
         [(KStr "Chassis",
           mk_metric ClsPower (NKey (KStr "Chassis")) (VInt 250) (VStr "Watts"))])].
Proof.
  destruct (read_power_consumption_last_wins
              (with_power (VDict [("PowerControl", VList [control 100; control 250])]))
              [("PowerControl", VList [control 100; control 250])]
              [control 100; control 250]) as [_ Hlast].
  - reflexivity.
  - reflexivity.
  - repeat constructor; eexists; reflexivity.
  - destruct (Hlast (control 250)) as (w & m & Hw & Hr & Hm & _); [reflexivity|].
    vm_compute in Hw. injection Hw as <-. rewrite Hr, Hm. reflexivity.
Defined.

(** ** C6: equality of metrics *)

(** C6.  [m1 == m2] holds exactly when the names agree as strings and the
    values and the units agree under [==]; the class of the object plays no
    part, a Temperature carries the unit "Celsius" and a Power the unit
    "Watts", and a name that is a member of an enumeration equals the
    string it prints as. *)
Theorem metric_eq_structural (m1 m2 : metric) :
  (metric_eq m1 m2 = true ↔
     py_str (m_name m1) = py_str (m_name m2) ∧
     py_eq (m_value m1) (m_value m2) = true ∧
     py_eq (m_unit m1) (m_unit m2) = true) ∧
  metric_eq m1 m2
  = metric_eq (MonitorMetric (m_name m1) (m_value m1) (m_unit m1))
              (MonitorMetric (m_name m2) (m_value m2) (m_unit m2)) ∧
  (∀ n v, get_unit (Temperature n v) = VStr "Celsius") ∧
  (∀ n v, get_unit (Power n v) = VStr "Watts") ∧
  (∀ n1 v1 n2 v2,
     metric_eq (Temperature n1 v1) (Temperature n2 v2)
     = String.eqb (py_str n1) (py_str n2) && py_eq v1 v2) ∧
  (∀ n1 v1 n2 v2,
     metric_eq (Power n1 v1) (Power n2 v2)
     = String.eqb (py_str n1) (py_str n2) && py_eq v1 v2) ∧
  (∀ n1 v1 n2 v2, metric_eq (Temperature n1 v1) (Power n2 v2) = false) ∧
  metric_eq (Temperature (NThermal CPU) (VInt 40))
            (Temperature (NKey (KStr "CPU")) (VInt 40)) = true.
Proof.
  split; [split|].
  - unfold metric_eq, get_name, get_value, get_unit. intros Heq.
    apply andb_prop in Heq as [Heq Hu]. apply andb_prop in Heq as [Hn Hv].
    apply String.eqb_eq in Hn. done.
  - unfold metric_eq, get_name, get_value, get_unit. intros (Hn & Hv & Hu).
    rewrite Hn, String.eqb_refl, Hv, Hu. reflexivity.
  - split; [reflexivity|]. split; [reflexivity|]. split; [reflexivity|].
    unfold metric_eq. simpl.
    split; [intros; apply andb_true_r|].
    split; [intros; apply andb_true_r|].
    split; [intros; apply andb_false_r|reflexivity].
Qed.

(** ** C7: the single-request fetch *)

(** C7.  A document with an "error" key is answered by the empty document
    and one log record.  An exception of the request is not turned into
    [None]: before the assignment to the local [redfish] has run, matching
    the [except] clause raises [UnboundLocalError], which leaves the
    function. *)
Theorem get_redfish_url_outcomes (get : string -> result pyval) (url : string) :
  (∀ d, get url = Ok (VDict d) -> is_Some (assoc d "error") ->
     get_redfish_url (Some get) url = (Ok (VDict []), [LogError url (VDict d)])) ∧
  (∀ e, get url = Raise e ->
     get_redfish_url (Some get) url = (Raise UnboundLocalError, []) ∧
     get_redfish_url (Some get) url ≠ (Ok VNone, [])).
Proof.
  split.
  - intros d E Herr. unfold get_redfish_url, get_redfish_url_try. rewrite E.
    destruct d as [|kv d]; [by destruct Herr|]. simpl.
    rewrite bool_decide_eq_true_2 by exact Herr. reflexivity.
  - intros e E. unfold get_redfish_url, get_redfish_url_try. rewrite E.
    split; [reflexivity|discriminate].
Qed.

Lemma get_redfish_url_outcomes_witness :
  get_redfish_url (Some (fun _ => Raise RetriesExhaustedError)) "/redfish/v1/Chassis/1/Thermal"
  = (Raise UnboundLocalError, []) ∧
  get_redfish_url (Some (fun _ => Raise JSONDecodeError)) "/redfish/v1/Chassis/1/Thermal"
  = (Raise UnboundLocalError, []) ∧
  get_redfish_url (Some (fun _ => Ok (VDict [("error", VDict [("code", VStr "iLO.0.10.ExtendedInfo")])])))
    "/redfish/v1/Chassis/enclosurechassis/"
  = (Ok (VDict []),
     [LogError "/redfish/v1/Chassis/enclosurechassis/"
        (VDict [("error", VDict [("code", VStr "iLO.0.10.ExtendedInfo")])])]).
Proof.
  split; [|split].
  - destruct (get_redfish_url_outcomes (fun _ => Raise RetriesExhaustedError)
                "/redfish/v1/Chassis/1/Thermal") as [_ Hexn].
    apply (Hexn RetriesExhaustedError). reflexivity.
  - destruct (get_redfish_url_outcomes (fun _ => Raise JSONDecodeError)
                "/redfish/v1/Chassis/1/Thermal") as [_ Hexn].
    apply (Hexn JSONDecodeError). reflexivity.
  - destruct (get_redfish_url_outcomes
                (fun _ => Ok (VDict [("error", VDict [("code", VStr "iLO.0.10.ExtendedInfo")])]))
                "/redfish/v1/Chassis/enclosurechassis/") as [Herr _].
    apply Herr; [reflexivity|]. eexists; reflexivity.
Defined.

(** ** C8: [get_ip] *)

(** C8.  [get_ip] returns the value under "IP Address" when the key is
    there; it ends the run through [h.fatal], with the message "Cannot
    detect BMC ip", exactly when the key is missing, and it never raises. *)
Theorem get_ip_fatal_iff_absent (m : gmap string string) :
  (∀ ip, m !! "IP Address" = Some ip -> get_ip m = Ok ip) ∧
  (m !! "IP Address" = None -> get_ip m = Fatal (Msg "Cannot detect BMC ip")) ∧
  ((∃ msg, get_ip m = Fatal msg) ↔ m !! "IP Address" = None) ∧
  (∀ e, get_ip m ≠ Raise e).
Proof.
  unfold get_ip. destruct (m !! "IP Address") as [ip|] eqn:E; simpl.
  - repeat split; try done.
    + by intros ? [= ->].
    + by intros [? ?].
  - repeat split; try done. by exists (Msg "Cannot detect BMC ip").
Qed.

Lemma get_ip_fatal_iff_absent_witness :
  get_ip {["IP Address" := "10.0.0.1"]} = Ok "10.0.0.1" ∧
  get_ip ∅ = Fatal (Msg "Cannot detect BMC ip").
Proof.
  split.
  - destruct (get_ip_fatal_iff_absent {["IP Address" := "10.0.0.1"]}) as [Hok _].
    apply Hok. reflexivity.
  - destruct (get_ip_fatal_iff_absent ∅) as (_ & Hfatal & _).
    apply Hfatal. reflexivity.
Defined.

(** ** Keys of an insertion-ordered dictionary *)

Lemma key_eqb_norm a b : key_eqb a b = true ↔ key_norm a = key_norm b.
Proof.
  destruct a as [|[]|x|s], b as [|[]|y|t];
    unfold key_eqb, key_norm, bool_to_Z, Bool.eqb;
    rewrite ?Z.eqb_eq, ?String.eqb_eq; split; intros Heq;
    try reflexivity; try discriminate; try congruence.
Qed.

Lemma key_eqb_refl k : key_eqb k k = true.
Proof. by apply key_eqb_norm. Qed.

Lemma key_eqb_trans_l a b c : key_eqb a b = true -> key_eqb a c = key_eqb b c.
Proof.
  intros Hab%key_eqb_norm.
  destruct (key_eqb b c) eqn:Hbc.
  - apply key_eqb_norm in Hbc. apply key_eqb_norm. congruence.
  - destruct (key_eqb a c) eqn:Hac; [|done].
    apply key_eqb_norm in Hac.
    assert (key_eqb b c = true) by (apply key_eqb_norm; congruence).
    congruence.
Qed.

Lemma key_eqb_str s t : key_eqb (KStr s) (KStr t) = true ↔ s = t.
Proof. simpl. apply String.eqb_eq. Qed.

Lemma dict_get_set_eq {V : Type} (d : pydict V) k v :
  dict_get (dict_set d k v) k = Some v.
Proof.
  induction d as [|[k0 v0] d IH]; simpl.
  - by rewrite key_eqb_refl.
  - destruct (key_eqb k0 k) eqn:E; simpl; rewrite E; [done|exact IH].
Qed.

Lemma dict_get_set_ne {V : Type} (d : pydict V) k v k' :
  key_eqb k k' = false -> dict_get (dict_set d k v) k' = dict_get d k'.
Proof.
  intros Hne. induction d as [|[k0 v0] d IH]; simpl.
  - by rewrite Hne.
  - destruct (key_eqb k0 k) eqn:E; simpl.
    + rewrite (key_eqb_trans_l _ _ k' E), Hne. reflexivity.
    + destruct (key_eqb k0 k'); [done|exact IH].
Qed.

Lemma dict_keys_set_new {V : Type} (d : pydict V) k v :
  dict_get d k = None -> dict_keys (dict_set d k v) = dict_keys d ++ [k].
Proof.
  unfold dict_keys. induction d as [|[k0 v0] d IH]; simpl; [done|].
  destruct (key_eqb k0 k); [done|]. intros Hd. simpl. f_equal. by apply IH.
Qed.

Lemma dict_keys_set_old {V : Type} (d : pydict V) k v :
  is_Some (dict_get d k) -> dict_keys (dict_set d k v) = dict_keys d.
Proof.
  unfold dict_keys. induction d as [|[k0 v0] d IH]; simpl.
  - by intros [? ?].
  - destruct (key_eqb k0 k); [done|]. intros Hd. simpl. f_equal. by apply IH.
Qed.

Lemma dict_get_str_keys {V : Type} (d : pydict V) n :
  KStr n ∉ dict_keys d -> (∀ k, k ∈ dict_keys d -> ∃ s, k = KStr s) ->
  dict_get d (KStr n) = None.
Proof.
  unfold dict_keys. induction d as [|[k0 v0] d IH]; simpl; [done|].
  intros Hn Hstr. destruct (Hstr k0) as [s ->]; [left|].
  apply not_elem_of_cons in Hn as [Hne Hn]. simpl.
  destruct (String.eqb s n) eqn:E.
  - apply String.eqb_eq in E. congruence.
  - apply IH; [done|]. intros k Hk. apply Hstr. by right.
Qed.

(** ** White space and tokens *)

Lemma append_snoc_nonempty (tok : string) (c : ascii) : tok +:+ String c "" ≠ "".
Proof. by destruct tok. Qed.

Lemma flush_nil tok : flush tok = [] ↔ tok = "".
Proof. destruct tok; simpl; split; congruence. Qed.

Lemma split_go_nil s : ∀ skip tok,
  split_go s skip tok = [] ↔ tok = "" ∧ only_space_go s skip = true.
Proof.
  induction s as [|c s IH]; intros skip tok.
  - simpl. rewrite flush_nil. naive_solver.
  - cbn [split_go only_space_go]. destruct skip as [|k]; [|apply IH].
    destruct (ws_len (String c s)) as [|k].
    + rewrite IH. pose proof (append_snoc_nonempty tok c). naive_solver.
    + rewrite app_nil, flush_nil, IH. naive_solver.
Qed.

Lemma first_token_nonspace s :
  has_nonspace s = true ↔ ∃ tok, first_token s = Some tok.
Proof.
  unfold has_nonspace, first_token, str_split.
  pose proof (split_go_nil s 0 "") as Hnil.
  destruct (split_go s 0 "") as [|tok toks]; simpl.
  - destruct Hnil as [[_ ->] _]; [done|]. simpl. split; [done|by intros [? ?]].
  - destruct (only_space_go s 0); simpl.
    + destruct Hnil as [_ Hnil]. by specialize (Hnil (conj eq_refl eq_refl)).
    + split; eauto.
Qed.

(** ** The loop bodies on well-formed entries *)

Lemma fan_fields_label f n r u : fan_fields f = Some (n, r, u) -> fan_label f = Some n.
Proof.
  unfold fan_fields, fan_label.
  destruct (py_getitem f "Name") as [[]| |]; try done.
  destruct (py_getitem f "Reading"); try done.
  destruct (py_getitem f "ReadingUnits"); try done. congruence.
Qed.

Lemma read_fans_body_step fans f n r u :
  fan_fields f = Some (n, r, u) ->
  read_fans_body fans f
  = Ok (dict_set fans (KStr n) (MonitorMetric (NKey (KStr n)) r u)).
Proof.
  unfold fan_fields, read_fans_body.
  destruct (py_getitem f "Name") as [[]| |]; try done.
  destruct (py_getitem f "Reading"); try done.
  destruct (py_getitem f "ReadingUnits"); try done.
  intros [= -> -> ->]. reflexivity.
Qed.

Lemma psu_fields_label p n w : psu_fields p = Some (n, w) -> psu_label p = Some n.
Proof.
  unfold psu_fields, psu_label.
  destruct (py_getitem p "Name") as [[]| |]; try done.
  destruct (py_getitem p "PowerInputWatts"); try done. congruence.
Qed.

Lemma read_power_supplies_body_step psus p n w tok :
  psu_fields p = Some (n, w) -> first_token n = Some tok ->
  read_power_supplies_body psus p
  = Ok (dict_set psus (KStr n) (Power (NKey (KStr tok)) w)).
Proof.
  unfold psu_fields, read_power_supplies_body, first_token.
  destruct (py_getitem p "Name") as [[]| |]; try done.
  destruct (py_getitem p "PowerInputWatts"); try done.
  intros [= -> ->] Htok. simpl.
  destruct (str_split n); simplify_eq/=. reflexivity.
Qed.

(** A name made of white space only: the token list is empty and [[0]]
    raises. *)
Lemma read_power_supplies_body_blank psus p n :
  psu_label p = Some n -> has_nonspace n = false ->
  read_power_supplies_body psus p = Raise IndexError.
Proof.
  unfold psu_label, read_power_supplies_body. intros Hn Hblank.
  destruct (py_getitem p "Name") as [[]| |]; simplify_eq/=.
  destruct (first_token_nonspace n) as [_ Hex].
  unfold first_token in Hex.
  destruct (str_split n) as [|tok toks]; [reflexivity|].
  rewrite Hex in Hblank by (by exists tok). discriminate.
Qed.

Lemma py_getitem_raises v k e :
  py_getitem v k = Raise e -> e = KeyError ∨ e = TypeError.
Proof.
  destruct v; simpl; try (intros [= <-]; by right).
  destruct (assoc d k); [done|]. intros [= <-]. by left.
Qed.

(** With a name that has a token, the body raises nothing from [[0]]. *)
Lemma read_power_supplies_body_no_index psus p :
  (∀ n, psu_label p = Some n -> has_nonspace n = true) ->
  read_power_supplies_body psus p ≠ Raise IndexError.
Proof.
  unfold psu_label, read_power_supplies_body. intros Hn.
  destruct (py_getitem p "Name") as [v|e|] eqn:E; simpl; try done.
  2: { apply py_getitem_raises in E as [-> | ->]; done. }
  destruct v as [| | |n| |]; simpl; try done.
  destruct (first_token_nonspace n) as [[tok Htok] _]; [by apply Hn|].
  unfold first_token in Htok.
  destruct (str_split n) as [|t toks]; simplify_eq/=.
  destruct (py_getitem p "PowerInputWatts") as [w|e|] eqn:Ew; simpl; try done.
  apply py_getitem_raises in Ew as [-> | ->]; done.
Qed.

Lemma put_keys_are_strings items : ∀ d,
  (∀ k, k ∈ dict_keys d -> ∃ s, k = KStr s) ->
  ∀ k, k ∈ dict_keys (foldl put d items) -> ∃ s, k = KStr s.
Proof.
  induction items as [|[n m] items IH]; intros d Hd; simpl; [done|].
  apply IH. intros k Hk. unfold put in Hk. simpl in Hk.
  destruct (dict_get d (KStr n)) eqn:E.
  - rewrite dict_keys_set_old in Hk by eauto. by apply Hd.
  - rewrite dict_keys_set_new in Hk by done.
    apply elem_of_app in Hk as [Hk|Hk]; [by apply Hd|].
    apply list_elem_of_singleton in Hk. eauto.
Qed.

(** With pairwise distinct labels, none of them in the dictionary yet, the
    keys are appended in the order of the entries. *)
Lemma put_keys_in_order items : ∀ d,
  (∀ k, k ∈ dict_keys d -> ∃ s, k = KStr s) ->
  NoDup items.*1 ->
  (∀ n, n ∈ items.*1 -> KStr n ∉ dict_keys d) ->
  dict_keys (foldl put d items) = dict_keys d ++ (KStr <$> items.*1).
Proof.
  induction items as [|[n m] items IH]; intros d Hstr Hnd Hfresh; simpl.
  - by rewrite app_nil_r.
  - apply NoDup_cons in Hnd as [Hn Hnd].
    assert (Hnew : dict_keys (put d (n, m)) = dict_keys d ++ [KStr n]).
    { apply dict_keys_set_new, dict_get_str_keys; [|done].
      apply Hfresh. simpl. left. }
    rewrite IH; [| | done |].
    + rewrite Hnew, <- app_assoc. reflexivity.
    + intros k. rewrite Hnew, elem_of_app, list_elem_of_singleton.
      intros [Hk| ->]; eauto.
    + intros n' Hn'. rewrite Hnew, not_elem_of_app, list_elem_of_singleton.
      split; [apply Hfresh; simpl; by right|].
      intros [= ->]. done.
Qed.

(** The value found under a label is the one of the last item that carries
    the label. *)
Lemma put_lookup_last items n : ∀ d,
  dict_get (foldl put d items) (KStr n)
  = match last (filter (fun it => it.1 = n) items) with
    | Some it => Some it.2
    | None => dict_get d (KStr n)
    end.
Proof.
  induction items as [|[n0 m0] items IH]; intros d; simpl; [done|].
  rewrite IH. rewrite filter_cons. unfold put. simpl.
  destruct (decide (n0 = n)) as [->|Hne].
  - rewrite last_cons, dict_get_set_eq.
    by destruct (last (filter _ items)).
  - rewrite dict_get_set_ne; [done|].
    simpl. apply String.eqb_neq. done.
Qed.

Lemma fans_loop fs :
  Forall (fun f => is_Some (fan_fields f)) fs ->
  ∃ items, Forall2 fan_stored fs items ∧
    ∀ d, py_for fs read_fans_body d = Ok (foldl put d items).
Proof.
  induction 1 as [|f fs [[[n r] u] Hf] _ (items & Hitems & Hloop)].
  - exists []. split; [constructor|done].
  - exists ((n, MonitorMetric (NKey (KStr n)) r u) :: items). split.
    + constructor; [|done]. by exists r, u.
    + intros d. simpl. rewrite (read_fans_body_step _ _ _ _ _ Hf). simpl.
      apply Hloop.
Qed.

Lemma psus_loop ps :
  Forall (fun p => ∃ n w, psu_fields p = Some (n, w) ∧ has_nonspace n = true) ps ->
  ∃ items, Forall2 psu_stored ps items ∧
    ∀ d, py_for ps read_power_supplies_body d = Ok (foldl put d items).
Proof.
  induction 1 as [|p ps (n & w & Hp & Hn) _ (items & Hitems & Hloop)].
  - exists []. split; [constructor|done].
  - apply first_token_nonspace in Hn as [tok Htok].
    exists ((n, Power (NKey (KStr tok)) w) :: items). split.
    + constructor; [|done]. by exists w, tok.
    + intros d. simpl.
      rewrite (read_power_supplies_body_step _ _ _ _ _ Hp Htok). simpl.
      apply Hloop.
Qed.

Lemma fan_stored_label f it : fan_stored f it -> fan_label f = Some it.1.
Proof. intros (r & u & Hf & _). by eapply fan_fields_label. Qed.

Lemma psu_stored_label p it : psu_stored p it -> psu_label p = Some it.1.
Proof. intros (w & tok & Hp & _). by eapply psu_fields_label. Qed.

Lemma read_power_supplies_unfold `{Controller} doc :
  get_power = Ok doc ->
  read_power_supplies =
    (it ← py_get doc "PowerSupplies"; ps ← py_iter it;
     psus ← py_for ps read_power_supplies_body [];
     Ok [(PowerContext_str POWER, psus)]).
Proof. intros E. unfold read_power_supplies. rewrite E. reflexivity. Qed.

(** ** C2: [read_power_supplies] keys by the full name, names by the first token *)

(** C2, as stated, fails when a later entry repeats the name: the entry
    named "PSU 1" with 42 Watts is in the list, and the key "PSU 1" is bound
    to the value 50 of the second entry. *)
Lemma read_power_supplies_repeated_name :
  psu "PSU 1" 42 ∈ [psu "PSU 1" 42; psu "PSU 1" 50] ∧
  ¬ (∃ psus, @read_power_supplies (with_power two_psu_1) = Ok [("Power", psus)] ∧
             dict_get psus (KStr "PSU 1")
             = Some (mk_metric ClsPower (NKey (KStr "PSU")) (VInt 42) (VStr "Watts"))).
Proof.
  split; [left|].
  intros (psus & Hread & Hget). vm_compute in Hread.
  injection Hread as <-. vm_compute in Hget. discriminate.
Qed.

(** C2, amended.  With every entry of "PowerSupplies" carrying a string
    "Name" that has a token and a "PowerInputWatts", each entry's full name
    is a key of the "Power" group, bound to a Power metric whose name is the
    first token of the full name and whose unit is "Watts"; its value is the
    entry's "PowerInputWatts" when no later entry bears the same name (the
    last entry of a name wins). *)
Theorem read_power_supplies_entry (C : Controller) (d : list (string * pyval))
    (ps : list pyval) :
  get_power = Ok (VDict d) ->
  assoc d "PowerSupplies" = Some (VList ps) ->
  Forall (fun p => ∃ n w, psu_fields p = Some (n, w) ∧ has_nonspace n = true) ps ->
  ∃ psus, read_power_supplies = Ok [("Power", psus)] ∧
    ∀ (i : nat) p n w, ps !! i = Some p -> psu_fields p = Some (n, w) ->
      ∃ tok m, first_token n = Some tok ∧
        dict_get psus (KStr n) = Some m ∧
        cls m = ClsPower ∧ get_name m = NKey (KStr tok) ∧
        get_unit m = VStr "Watts" ∧
        ((∀ (j : nat) q, (i < j)%nat -> ps !! j = Some q -> psu_label q ≠ Some n) ->
         get_value m = w).
Proof.
  intros E Hd Hps. rewrite (read_power_supplies_unfold _ E). simpl.
  rewrite Hd. simpl.
  destruct (psus_loop ps Hps) as (items & Hitems & Hloop).
  rewrite Hloop. simpl. eexists. split; [reflexivity|].
  intros i p n w Hi Hp.
  destruct (Forall2_lookup_l _ _ _ _ _ Hitems Hi) as (it & Hit & Hst).
  destruct Hst as (w' & tok & Hp' & Htok & Hm).
  rewrite Hp in Hp'. injection Hp' as Hn <-. 
  rewrite put_lookup_last. simpl.
  assert (Hin : it ∈ filter (fun it0 : string * metric => it0.1 = n) items).
  { apply list_elem_of_filter. split; [done|]. by eapply list_elem_of_lookup_2. }
  destruct (last (filter (fun it0 : string * metric => it0.1 = n) items))
    as [it'|] eqn:Hlast.
  2: { apply last_None in Hlast. rewrite Hlast in Hin. by apply elem_of_nil in Hin. }
  assert (Hin' : it' ∈ filter (fun it0 : string * metric => it0.1 = n) items).
  { by eapply last_Some_elem_of. }
  apply list_elem_of_filter in Hin' as [Hn' Hin'].
  apply list_elem_of_lookup_1 in Hin' as [j Hj].
  destruct (Forall2_lookup_r _ _ _ _ _ Hitems Hj) as (q & Hq & Hst').
  destruct Hst' as (w'' & tok' & Hq' & Htok' & Hm').
  rewrite Hn' in Htok'. rewrite <- Hn in Htok. rewrite Htok in Htok'.
  injection Htok' as <-.
  exists tok, it'.2. rewrite Hm'.
  split; [done|]. split; [done|]. split; [done|]. split; [done|].
  split; [done|]. intros Hlater. simpl.
  assert (Hfilter : filter (fun it0 : string * metric => it0.1 = n) (drop (S i) items) = []).
  { destruct (filter _ (drop (S i) items)) as [|x l] eqn:Hf; [done|]. exfalso.
    assert (Hx : x ∈ filter (fun it0 : string * metric => it0.1 = n)
                       (drop (S i) items)) by (rewrite Hf; left).
    apply list_elem_of_filter in Hx as [Hx1 Hx].
    apply list_elem_of_lookup_1 in Hx as [k Hk]. rewrite lookup_drop in Hk.
    destruct (Forall2_lookup_r _ _ _ _ _ Hitems Hk) as (q2 & Hq2 & Hst2).
    apply psu_stored_label in Hst2. apply (Hlater (S i + k)%nat q2).
    - lia.
    - done.
    - congruence. }
  rewrite <- (take_drop_middle _ _ _ Hit) in Hlast.
  rewrite filter_app, filter_cons, decide_True, Hfilter, last_snoc in Hlast by done.
  injection Hlast as <-. rewrite Hm in Hm'. by injection Hm'.
Qed.

Lemma read_power_supplies_entry_witness :
  ∃ psus,
    @read_power_supplies (with_power (VDict [("PowerSupplies", VList [psu "PSU 1" 42])]))
    = Ok [("Power", psus)] ∧
    dict_get psus (KStr "PSU 1")
    = Some (mk_metric ClsPower (NKey (KStr "PSU")) (VInt 42) (VStr "Watts")).
Proof.
  destruct (read_power_supplies_entry
              (with_power (VDict [("PowerSupplies", VList [psu "PSU 1" 42])]))
              [("PowerSupplies", VList [psu "PSU 1" 42])]
              [psu "PSU 1" 42]) as (psus & Hread & Hentry).
  - reflexivity.
  - reflexivity.
  - repeat constructor. exists "PSU 1", (VInt 42). split; reflexivity.
  - exists psus. split; [exact Hread|].
    destruct (Hentry 0%nat (psu "PSU 1" 42) "PSU 1" (VInt 42))
      as (tok & m & Htok & Hget & Hcls & Hname & Hunit & Hvalue);
      [reflexivity|reflexivity|].
    vm_compute in Htok. injection Htok as <-.
    rewrite Hget. destruct m as [c n v u]. simpl in *. subst c n u.
    rewrite Hvalue; [reflexivity|].
    intros [|[|j]] q Hlt Hq; (lia || discriminate).
Defined.

(** ** C9: the name of a power supply must have a token *)

Lemma py_for_no_index ps :
  Forall (fun p => ∀ n, psu_label p = Some n -> has_nonspace n = true) ps ->
  ∀ psus, py_for ps read_power_supplies_body psus ≠ Raise IndexError.
Proof.
  induction 1 as [|p ps Hp _ IH]; intros psus; simpl; [done|].
  pose proof (read_power_supplies_body_no_index psus p Hp) as Hbody.
  destruct (read_power_supplies_body psus p) as [psus'|e|m]; simpl.
  - apply IH.
  - congruence.
  - done.
Qed.

(** C9.  [read_power_supplies] raises [IndexError] at the first entry whose
    name is empty or white space only, the entries before it being well
    formed; when every name has a character that is not white space, no
    [IndexError] is raised, and the call returns when the entries also carry
    "PowerInputWatts". *)
Theorem read_power_supplies_needs_token (C : Controller)
    (d : list (string * pyval)) (ps : list pyval) :
  get_power = Ok (VDict d) ->
  assoc d "PowerSupplies" = Some (VList ps) ->
  (∀ pre p post n,
     ps = pre ++ p :: post ->
     Forall (fun q => ∃ n w, psu_fields q = Some (n, w) ∧ has_nonspace n = true) pre ->
     psu_label p = Some n -> has_nonspace n = false ->
     read_power_supplies = Raise IndexError) ∧
  (Forall (fun p => ∀ n, psu_label p = Some n -> has_nonspace n = true) ps ->
   read_power_supplies ≠ Raise IndexError) ∧
  (Forall (fun p => ∃ n w, psu_fields p = Some (n, w) ∧ has_nonspace n = true) ps ->
   ∃ r, read_power_supplies = Ok r).
Proof.
  intros E Hd. rewrite (read_power_supplies_unfold _ E). simpl.
  rewrite Hd. simpl. split; [|split].
  - intros pre p post n -> Hpre Hp Hblank.
    rewrite py_for_app.
    destruct (psus_loop pre Hpre) as (items & _ & Hloop). rewrite Hloop.
    simpl. rewrite (read_power_supplies_body_blank _ _ _ Hp Hblank).
    reflexivity.
  - intros Hps. pose proof (py_for_no_index ps Hps []) as Hloop.
    destruct (py_for ps read_power_supplies_body []); simpl; congruence.
  - intros Hps. destruct (psus_loop ps Hps) as (items & _ & Hloop).
    rewrite Hloop. simpl. eauto.
Qed.

Lemma read_power_supplies_needs_token_witness :
  @read_power_supplies
    (with_power (VDict [("PowerSupplies", VList [psu "PSU 1" 42; psu "  " 7])]))
  = Raise IndexError ∧
  @read_power_supplies (with_power (VDict [("PowerSupplies", VList [psu "" 7])]))
  = Raise IndexError ∧
  ∃ r, @read_power_supplies
         (with_power (VDict [("PowerSupplies", VList [psu "PSU 1" 42; psu "PSU 2" 7])]))
       = Ok r.
Proof.
  split; [|split].
  - destruct (read_power_supplies_needs_token
                (with_power (VDict [("PowerSupplies", VList [psu "PSU 1" 42; psu "  " 7])]))
                [("PowerSupplies", VList [psu "PSU 1" 42; psu "  " 7])]
                [psu "PSU 1" 42; psu "  " 7]) as [Hblank _];
      [reflexivity|reflexivity|].
    apply (Hblank [psu "PSU 1" 42] (psu "  " 7) [] "  ");
      [reflexivity| |reflexivity|reflexivity].
    repeat constructor. exists "PSU 1", (VInt 42). split; reflexivity.
  - destruct (read_power_supplies_needs_token
                (with_power (VDict [("PowerSupplies", VList [psu "" 7])]))
                [("PowerSupplies", VList [psu "" 7])]
                [psu "" 7]) as [Hblank _];
      [reflexivity|reflexivity|].
    apply (Hblank [] (psu "" 7) [] ""); [reflexivity|constructor|reflexivity|reflexivity].
  - destruct (read_power_supplies_needs_token
                (with_power (VDict [("PowerSupplies", VList [psu "PSU 1" 42; psu "PSU 2" 7])]))
                [("PowerSupplies", VList [psu "PSU 1" 42; psu "PSU 2" 7])]
                [psu "PSU 1" 42; psu "PSU 2" 7]) as (_ & _ & Htotal);
      [reflexivity|reflexivity|].
    apply Htotal. repeat constructor.
    + exists "PSU 1", (VInt 42). split; reflexivity.
    + exists "PSU 2", (VInt 7). split; reflexivity.
Defined.

(** ** C5: the keys follow the order of the document *)

(** C5, as stated for every document, fails when a label is repeated: the
    document lists "Fan 1" twice and the mapping lists it once. *)
Lemma read_fans_repeated_label :
  omap fan_label [fan "Fan 1" 47; fan "Fan 1" 0] = ["Fan 1"; "Fan 1"] ∧
  ¬ (∃ fans, @read_fans (with_thermal two_fan_1) = Ok [("Fan", fans)] ∧
             dict_keys fans = KStr <$> ["Fan 1"; "Fan 1"]).
Proof.
  split; [reflexivity|].
  intros (fans & Hread & Hkeys). vm_compute in Hread.
  injection Hread as <-. vm_compute in Hkeys. discriminate.
Qed.

Lemma stored_omap {A : Type} (R : A -> string * metric -> Prop)
    (label : A -> option string) es items :
  (∀ e it, R e it -> label e = Some it.1) ->
  Forall2 R es items -> omap label es = items.*1.
Proof.
  intros HR. induction 1 as [|e it es items He _ IH]; [done|].
  cbn [omap list_omap]. rewrite (HR _ _ He), fmap_cons. f_equal. exact IH.
Qed.

Lemma fans_keys fs :
  Forall (fun f => is_Some (fan_fields f)) fs ->
  NoDup (omap fan_label fs) ->
  ∃ fans, py_for fs read_fans_body [] = Ok fans ∧
          dict_keys fans = KStr <$> omap fan_label fs.
Proof.
  intros Hfs Hnd. destruct (fans_loop fs Hfs) as (items & Hitems & Hloop).
  rewrite (stored_omap _ _ _ _ fan_stored_label Hitems) in *.
  exists (foldl put [] items). split; [apply Hloop|].
  rewrite put_keys_in_order; [done| |done|].
  - by intros k Hk%elem_of_nil.
  - intros n _ Hk. by apply elem_of_nil in Hk.
Qed.

Lemma psus_keys ps :
  Forall (fun p => ∃ n w, psu_fields p = Some (n, w) ∧ has_nonspace n = true) ps ->
  NoDup (omap psu_label ps) ->
  ∃ psus, py_for ps read_power_supplies_body [] = Ok psus ∧
          dict_keys psus = KStr <$> omap psu_label ps.
Proof.
  intros Hps Hnd. destruct (psus_loop ps Hps) as (items & Hitems & Hloop).
  rewrite (stored_omap _ _ _ _ psu_stored_label Hitems) in *.
  exists (foldl put [] items). split; [apply Hloop|].
  rewrite put_keys_in_order; [done| |done|].
  - by intros k Hk%elem_of_nil.
  - intros n _ Hk. by apply elem_of_nil in Hk.
Qed.

Lemma omap_lookup_total {A B : Type} (g : A -> option B) (l : list A) :
  Forall (fun x => is_Some (g x)) l ->
  ∀ (i : nat) x, l !! i = Some x -> omap g l !! i = g x.
Proof.
  induction 1 as [|y l [b Hy] _ IH]; intros i x Hi; [done|].
  cbn [omap list_omap]. rewrite Hy. destruct i as [|i]; simpl in *.
  - injection Hi as <-. by rewrite Hy.
  - by apply IH.
Qed.

Lemma keys_follow_entries {A : Type} (label : A -> option string)
    (es es' : list A) (keys keys' : list hkey) :
  Forall (fun e => is_Some (label e)) es -> es ≡ₚ es' ->
  keys = KStr <$> omap label es -> keys' = KStr <$> omap label es' ->
  ∀ (i j : nat) e, es !! i = Some e -> es' !! j = Some e ->
    keys !! i = keys' !! j ∧ keys !! i = KStr <$> label e.
Proof.
  intros Hes Hperm -> -> i j e Hi Hj.
  assert (Hes' : Forall (fun e => is_Some (label e)) es') by (by rewrite <- Hperm).
  rewrite !list_lookup_fmap.
  rewrite (omap_lookup_total _ _ Hes _ _ Hi), (omap_lookup_total _ _ Hes' _ _ Hj).
  done.
Qed.

(** C5, amended.  For a document whose entries are well formed and carry
    pairwise distinct labels, the keys of the "Fan" group of [read_fans],
    and of the "Power" group of [read_power_supplies], are the labels of
    the entries in the order of the document; for a document [C'] that
    lists the same entries in another order, the keys come in that other
    order: an entry that moves from position [i] to position [j] takes its
    key from position [i] to position [j]. *)
Theorem reads_keep_document_order (C C' : Controller)
    (dt dt' dp dp' : list (string * pyval)) (fs fs' ps ps' : list pyval) :
  @get_thermal C = Ok (VDict dt) -> @get_thermal C' = Ok (VDict dt') ->
  @get_power C = Ok (VDict dp) -> @get_power C' = Ok (VDict dp') ->
  assoc dt "Fans" = Some (VList fs) -> assoc dt' "Fans" = Some (VList fs') ->
  assoc dp "PowerSupplies" = Some (VList ps) ->
  assoc dp' "PowerSupplies" = Some (VList ps') ->
  fs ≡ₚ fs' -> ps ≡ₚ ps' ->
  Forall (fun f => is_Some (fan_fields f)) fs ->
  Forall (fun p => ∃ n w, psu_fields p = Some (n, w) ∧ has_nonspace n = true) ps ->
  NoDup (omap fan_label fs) -> NoDup (omap psu_label ps) ->
  ∃ fans fans' psus psus',
    @read_fans C = Ok [("Fan", fans)] ∧
    @read_fans C' = Ok [("Fan", fans')] ∧
    @read_power_supplies C = Ok [("Power", psus)] ∧
    @read_power_supplies C' = Ok [("Power", psus')] ∧
    dict_keys fans = KStr <$> omap fan_label fs ∧
    dict_keys fans' = KStr <$> omap fan_label fs' ∧
    dict_keys psus = KStr <$> omap psu_label ps ∧
    dict_keys psus' = KStr <$> omap psu_label ps' ∧
    (∀ (i j : nat) f, fs !! i = Some f -> fs' !! j = Some f ->
       dict_keys fans !! i = dict_keys fans' !! j ∧
       dict_keys fans !! i = KStr <$> fan_label f) ∧
    (∀ (i j : nat) p, ps !! i = Some p -> ps' !! j = Some p ->
       dict_keys psus !! i = dict_keys psus' !! j ∧
       dict_keys psus !! i = KStr <$> psu_label p).
Proof.
  intros Et Et' Ep Ep' Hfs Hfs' Hps Hps' Hpf Hpp Hwf Hwp Hnf Hnp.
  destruct (fans_keys fs Hwf Hnf) as (fans & Hfans & Hkf).
  destruct (fans_keys fs') as (fans' & Hfans' & Hkf').
  { by rewrite <- Hpf. }
  { by rewrite <- Hpf. }
  destruct (psus_keys ps Hwp Hnp) as (psus & Hpsus & Hkp).
  destruct (psus_keys ps') as (psus' & Hpsus' & Hkp').
  { by rewrite <- Hpp. }
  { by rewrite <- Hpp. }
  exists fans, fans', psus, psus'.
  rewrite (read_fans_unfold _ Et), (@read_fans_unfold C' _ Et').
  rewrite (read_power_supplies_unfold _ Ep), (@read_power_supplies_unfold C' _ Ep').
  simpl. rewrite Hfs, Hfs', Hps, Hps'. simpl.
  rewrite Hfans, Hfans', Hpsus, Hpsus'. simpl.
  do 8 (split; [done|]). split.
  - apply (keys_follow_entries fan_label fs fs'); try done.
    eapply Forall_impl; [exact Hwf|]. intros f [[[n r] u] Hf].
    exists n. by eapply fan_fields_label.
  - apply (keys_follow_entries psu_label ps ps'); try done.
    eapply Forall_impl; [exact Hwp|]. intros p (n & w & Hp & _).
    exists n. by eapply psu_fields_label.
Qed.

Lemma reads_keep_document_order_witness :
  ∃ fans fans' psus psus',
    @read_fans (with_thermal (VDict [("Fans", VList [fan "Fan 1" 47; fan "Fan 2" 0])]))
    = Ok [("Fan", fans)] ∧
    @read_fans (with_thermal (VDict [("Fans", VList [fan "Fan 2" 0; fan "Fan 1" 47])]))
    = Ok [("Fan", fans')] ∧
    @read_power_supplies (with_power (VDict [("PowerSupplies", VList [psu "PSU 1" 42; psu "PSU 2" 7])]))
    = Ok [("Power", psus)] ∧
    @read_power_supplies (with_power (VDict [("PowerSupplies", VList [psu "PSU 2" 7; psu "PSU 1" 42])]))
    = Ok [("Power", psus')] ∧
    dict_keys fans = [KStr "Fan 1"; KStr "Fan 2"] ∧
    dict_keys fans' = [KStr "Fan 2"; KStr "Fan 1"] ∧
    dict_keys psus = [KStr "PSU 1"; KStr "PSU 2"] ∧
    dict_keys psus' = [KStr "PSU 2"; KStr "PSU 1"].
Proof.
  destruct (reads_keep_document_order
    {| get_thermal := Ok (VDict [("Fans", VList [fan "Fan 1" 47; fan "Fan 2" 0])]);
       get_power := Ok (VDict [("PowerSupplies", VList [psu "PSU 1" 42; psu "PSU 2" 7])]) |}
    {| get_thermal := Ok (VDict [("Fans", VList [fan "Fan 2" 0; fan "Fan 1" 47])]);
       get_power := Ok (VDict [("PowerSupplies", VList [psu "PSU 2" 7; psu "PSU 1" 42])]) |}
    [("Fans", VList [fan "Fan 1" 47; fan "Fan 2" 0])]
    [("Fans", VList [fan "Fan 2" 0; fan "Fan 1" 47])]
    [("PowerSupplies", VList [psu "PSU 1" 42; psu "PSU 2" 7])]
    [("PowerSupplies", VList [psu "PSU 2" 7; psu "PSU 1" 42])]
    [fan "Fan 1" 47; fan "Fan 2" 0] [fan "Fan 2" 0; fan "Fan 1" 47]
    [psu "PSU 1" 42; psu "PSU 2" 7] [psu "PSU 2" 7; psu "PSU 1" 42])
    as (fans & fans' & psus & psus' & H1 & H2 & H3 & H4 & H5 & H6 & H7 & H8 & _);
    try reflexivity.
  - apply perm_swap.
  - apply perm_swap.
  - repeat constructor; eexists; reflexivity.
  - repeat constructor.
    + exists "PSU 1", (VInt 42). split; reflexivity.
    + exists "PSU 2", (VInt 7). split; reflexivity.
  - vm_compute. apply NoDup_cons. split; [|apply NoDup_singleton].
    intros Hin. apply list_elem_of_singleton in Hin. discriminate.
  - vm_compute. apply NoDup_cons. split; [|apply NoDup_singleton].
    intros Hin. apply list_elem_of_singleton in Hin. discriminate.
  - exists fans, fans', psus, psus'. do 4 (split; [assumption|]).
    split; [exact H5|]. split; [exact H6|]. split; [exact H7|exact H8].
Defined.

(** ** C10: the discovery mapping after [parse_cmd] *)






Lemma decode_Ok b s : decode b = Ok s -> s = b.
Proof. unfold decode. destruct (utf8_ok b []); congruence. Qed.







(** ** C3: calling [prepare] again *)

(** C3, as stated, fails: with a controller and a session in place, a
    second [prepare] builds a second client and logs in again, and the
    session of the controller is no longer the first one. *)
Lemma prepare_again_reconnects :
  prepare lab_world (new_Vendor "Hpe") = Ok hpe_prepared ∧
  current_session hpe_prepared = Some first_session ∧
  ∃ self', prepare lab_world hpe_prepared = Ok self' ∧
    current_session self' = Some second_session ∧
    ¬ (current_session self' = current_session hpe_prepared) ∧
    (trace self'
     = trace hpe_prepared
       ++ [EvReadConfig; EvNewClient second_session; EvLogin second_session]).
Proof.
  split; [vm_compute; reflexivity|]. split; [reflexivity|].
  eexists. split; [vm_compute; reflexivity|].
  split; [reflexivity|]. split; [|reflexivity]. discriminate.
Qed.

(** C3, amended.  Once a controller object exists, a [prepare] that
    returns has built no new controller and has not run the local discovery
    again: the discovery mapping is the one it was.  It has, however,
    connected again: the configuration is read, a new client is built and
    logged in, and that client replaces the session the controller held. *)
Theorem prepare_again_keeps_controller (w : world) (self self' : vendor_obj)
    (b : bmc_obj) :
  vendor_bmc self = Some b ->
  prepare w self = Ok self' ->
  ∃ c, trace self' = trace self ++ [EvReadConfig; EvNewClient c; EvLogin c] ∧
       vendor_bmc self' = Some (mk_bmc (bmc b) (Some c)) ∧
       sess_id c = next_id self ∧
       next_id self' = S (next_id self) ∧
       vendor_name self' = vendor_name self ∧
       (EvNewBMC ∉ [EvReadConfig; EvNewClient c; EvLogin c]) ∧
       (∀ cmd, EvRun cmd ∉ [EvReadConfig; EvNewClient c; EvLogin c]) ∧
       (∀ c0, redfish_obj b = Some c0 -> (sess_id c0 < next_id self)%nat -> c ≠ c0).
Proof.
  intros Hb. unfold prepare. rewrite Hb. simpl. unfold connect_redfish.
  destruct (config_read w) as [[]| |]; simpl; try done.
  destruct (String.eqb _ "") ; simpl; [done|].
  destruct (config_get w _ "username") as [user| |]; simpl; try done.
  destruct (config_get w _ "password") as [pass| |]; simpl; try done.
  destruct (get_ip (bmc b)) as [ip| |]; simpl; try done.
  destruct (client_new_fails w _); simpl; [done|].
  destruct (login_fails w _); simpl; [done|].
  intros [= <-]. eexists. simpl. rewrite <- !app_assoc. simpl.
  split; [reflexivity|]. split; [reflexivity|]. split; [reflexivity|].
  split; [reflexivity|]. split; [reflexivity|].
  split; [|split].
  - rewrite !not_elem_of_cons. repeat split; try discriminate. apply not_elem_of_nil.
  - intros cmd. rewrite !not_elem_of_cons.
    repeat split; try discriminate. apply not_elem_of_nil.
  - intros c0 _ Hlt Heq. subst c0. simpl in Hlt. lia.
Qed.

Lemma prepare_again_keeps_controller_witness :
  ∃ c, trace
         (mk_vendor "Hpe"
            (Some (mk_bmc {["IP Address" := "10.0.0.1"]} (Some second_session)))
            (trace hpe_prepared
             ++ [EvReadConfig; EvNewClient second_session; EvLogin second_session])
            2)
       = trace hpe_prepared ++ [EvReadConfig; EvNewClient c; EvLogin c] ∧
       sess_id c = 1%nat.
Proof.
  destruct (prepare_again_keeps_controller lab_world hpe_prepared
              (mk_vendor "Hpe"
                 (Some (mk_bmc {["IP Address" := "10.0.0.1"]} (Some second_session)))
                 (trace hpe_prepared
                  ++ [EvReadConfig; EvNewClient second_session; EvLogin second_session])
                 2)
              (mk_bmc {["IP Address" := "10.0.0.1"]} (Some first_session)))
    as (c & Htrace & _ & Hid & _).
  - reflexivity.
  - vm_compute. reflexivity.
  - exists c. split; [exact Htrace|exact Hid].
Defined.

(** * Further properties of the aggregation reads *)

Lemma py_for_preserves {S A : Type} (body : S -> A -> result S) (P : S -> Prop)
    (xs : list A) :
  (∀ s x s', body s x = Ok s' -> P s -> P s') ->
  ∀ s s', py_for xs body s = Ok s' -> P s -> P s'.
Proof.
  intros Hbody. induction xs as [|x xs IH]; intros s s'; simpl.
  - by intros [= <-].
  - destruct (body s x) as [s1| |] eqn:E; simpl; try done.
    intros Hloop Hs. eapply IH; [exact Hloop|]. by eapply Hbody.
Qed.

Lemma key_eqb_sym a b : key_eqb a b = key_eqb b a.
Proof.
  destruct (key_eqb a b) eqn:Hab, (key_eqb b a) eqn:Hba; try done.
  - apply key_eqb_norm in Hab.
    assert (key_eqb b a = true) by (by apply key_eqb_norm). congruence.
  - apply key_eqb_norm in Hba.
    assert (key_eqb a b = true) by (by apply key_eqb_norm). congruence.
Qed.

Lemma dict_set_distinct {V : Type} (d : pydict V) k v :
  distinct_keys d -> distinct_keys (dict_set d k v).
Proof.
  induction d as [|[k0 v0] d IH]; simpl; [done|].
  intros [Hk0 Hd]. destruct (key_eqb k0 k) eqn:E; simpl; [done|].
  split; [|by apply IH].
  rewrite dict_get_set_ne; [done|]. by rewrite key_eqb_sym.
Qed.

(** What a turn of each loop does when it does not raise: one store. *)
Lemma read_fans_body_Ok fans f fans' :
  read_fans_body fans f = Ok fans' ->
  ∃ label r u k, py_getitem f "Name" = Ok label ∧ py_getitem f "Reading" = Ok r ∧
    py_getitem f "ReadingUnits" = Ok u ∧ as_key label = Ok k ∧
    fans' = dict_set fans k (MonitorMetric (NKey k) r u).
Proof.
  unfold read_fans_body.
  destruct (py_getitem f "Name") as [label| |]; simpl; try done.
  destruct (py_getitem f "Reading") as [r| |]; simpl; try done.
  destruct (py_getitem f "ReadingUnits") as [u| |]; simpl; try done.
  destruct (as_key label) as [k| |] eqn:Ek; simpl; try done.
  intros [= <-]. by exists label, r, u, k.
Qed.

Lemma read_power_supplies_body_Ok psus p psus' :
  read_power_supplies_body psus p = Ok psus' ->
  ∃ n tok toks w, py_getitem p "Name" = Ok (VStr n) ∧ str_split n = tok :: toks ∧
    py_getitem p "PowerInputWatts" = Ok w ∧
    psus' = dict_set psus (KStr n) (Power (NKey (KStr tok)) w).
Proof.
  unfold read_power_supplies_body.
  destruct (py_getitem p "Name") as [v| |]; simpl; try done.
  destruct v as [| | |n| |]; simpl; try done.
  destruct (str_split n) as [|tok toks] eqn:Es; simpl; try done.
  destruct (py_getitem p "PowerInputWatts") as [w| |]; simpl; try done.
  intros [= <-]. by exists n, tok, toks, w.
Qed.

Lemma read_power_consumption_body_Ok chassis power chassis' :
  read_power_consumption_body chassis power = Ok chassis' ->
  ∃ w, py_getitem power "PowerConsumedWatts" = Ok w ∧
       chassis' = dict_set chassis (KStr "Chassis") (chassis_metric w).
Proof.
  unfold read_power_consumption_body.
  destruct (py_getitem power "PowerConsumedWatts") as [w| |]; simpl; try done.
  intros [= <-]. by exists w.
Qed.

(** The three reads end with one group, or raise. *)
Lemma read_fans_Ok `{Controller} r :
  read_fans = Ok r ->
  ∃ doc it fs fans, get_thermal = Ok doc ∧ py_get doc "Fans" = Ok it ∧
    py_iter it = Ok fs ∧ py_for fs read_fans_body [] = Ok fans ∧
    r = [("Fan", fans)].
Proof.
  unfold read_fans.
  destruct get_thermal as [doc| |] eqn:E1; simpl; try done.
  destruct (py_get doc "Fans") as [it| |] eqn:E2; simpl; try done.
  destruct (py_iter it) as [fs| |] eqn:E3; simpl; try done.
  destruct (py_for fs read_fans_body []) as [fans| |] eqn:E4; simpl; try done.
  intros [= <-]. by exists doc, it, fs, fans.
Qed.

Lemma read_power_supplies_Ok `{Controller} r :
  read_power_supplies = Ok r ->
  ∃ doc it ps psus, get_power = Ok doc ∧ py_get doc "PowerSupplies" = Ok it ∧
    py_iter it = Ok ps ∧ py_for ps read_power_supplies_body [] = Ok psus ∧
    r = [("Power", psus)].
Proof.
  unfold read_power_supplies.
  destruct get_power as [doc| |] eqn:E1; simpl; try done.
  destruct (py_get doc "PowerSupplies") as [it| |] eqn:E2; simpl; try done.
  destruct (py_iter it) as [ps| |] eqn:E3; simpl; try done.
  destruct (py_for ps read_power_supplies_body []) as [psus| |] eqn:E4; simpl; try done.
  intros [= <-]. by exists doc, it, ps, psus.
Qed.

Lemma read_power_consumption_Ok `{Controller} r :
  read_power_consumption = Ok r ->
  ∃ doc it ps chassis, get_power = Ok doc ∧ py_get doc "PowerControl" = Ok it ∧
    py_iter it = Ok ps ∧ py_for ps read_power_consumption_body [] = Ok chassis ∧
    r = [("Power", chassis)].
Proof.
  unfold read_power_consumption.
  destruct get_power as [doc| |] eqn:E1; simpl; try done.
  destruct (py_get doc "PowerControl") as [it| |] eqn:E2; simpl; try done.
  destruct (py_iter it) as [ps| |] eqn:E3; simpl; try done.
  destruct (py_for ps read_power_consumption_body []) as [chassis| |] eqn:E4; simpl; try done.
  intros [= <-]. by exists doc, it, ps, chassis.
Qed.

(** ** X1: the power reads on a document without their list *)

(** X1.  When the power document is a dictionary without "PowerControl",
    [read_power_consumption] raises [TypeError]; without "PowerSupplies",
    [read_power_supplies] raises [TypeError]; when the document is not a
    dictionary at all (a fetch that gave [None]), both raise
    [AttributeError].  The generic controller, whose [get_power] is [{}],
    is in the first case for both. *)
Theorem power_reads_without_lists (C : Controller) (doc : pyval) :
  get_power = Ok doc ->
  (∀ d, doc = VDict d -> assoc d "PowerControl" = None ->
     read_power_consumption = Raise TypeError) ∧
  (∀ d, doc = VDict d -> assoc d "PowerSupplies" = None ->
     read_power_supplies = Raise TypeError) ∧
  ((∀ d, doc ≠ VDict d) ->
     read_power_consumption = Raise AttributeError ∧
     read_power_supplies = Raise AttributeError).
Proof.
  intros E.
  rewrite (read_power_consumption_unfold _ E), (read_power_supplies_unfold _ E).
  split; [|split].
  - intros d -> Hd. simpl. by rewrite Hd.
  - intros d -> Hd. simpl. by rewrite Hd.
  - intros Hdoc. destruct doc; try done. by destruct (Hdoc d).
Qed.

Lemma power_reads_without_lists_witness :
  @read_power_consumption BMC = Raise TypeError ∧
  @read_power_supplies BMC = Raise TypeError ∧
  @read_power_supplies (with_power VNone) = Raise AttributeError.
Proof.
  destruct (power_reads_without_lists BMC (VDict [])) as (Hc & Hs & _);
    [reflexivity|].
  destruct (power_reads_without_lists (with_power VNone) VNone) as (_ & _ & Hn);
    [reflexivity|].
  split; [by apply (Hc [])|]. split; [by apply (Hs [])|].
  apply Hn. discriminate.
Defined.

(** ** X2: the shape of a power-consumption reading *)



(** ** X3: [read_fans] stores all the entries or none *)

Lemma read_fans_body_fan_ok fans f :
  (fan_ok f = true -> ∃ fans', read_fans_body fans f = Ok fans') ∧
  (fan_ok f = false ->
     read_fans_body fans f = Raise KeyError ∨ read_fans_body fans f = Raise TypeError).
Proof.
  unfold fan_ok, read_fans_body.
  destruct (py_getitem f "Name") as [label|e|] eqn:E1; simpl.
  - destruct (py_getitem f "Reading") as [r|e|] eqn:E2; simpl.
    + destruct (py_getitem f "ReadingUnits") as [u|e|] eqn:E3; simpl.
      * destruct label; simpl; split; try done; eauto.
      * split; [done|]. intros _.
        apply py_getitem_raises in E3 as [->| ->]; eauto.
      * by destruct f; simpl in E3; try destruct (assoc _ _).
    + split; [done|]. intros _.
      apply py_getitem_raises in E2 as [->| ->]; eauto.
    + by destruct f; simpl in E2; try destruct (assoc _ _).
  - split; [done|]. intros _.
    apply py_getitem_raises in E1 as [->| ->]; eauto.
  - by destruct f; simpl in E1; try destruct (assoc _ _).
Qed.

Lemma read_fans_loop_fan_ok fs : ∀ fans,
  (forallb fan_ok fs = true -> ∃ fans', py_for fs read_fans_body fans = Ok fans') ∧
  (forallb fan_ok fs = false ->
     py_for fs read_fans_body fans = Raise KeyError ∨
     py_for fs read_fans_body fans = Raise TypeError).
Proof.
  induction fs as [|f fs IH]; intros fans; simpl.
  - split; [eauto|done].
  - destruct (read_fans_body_fan_ok fans f) as [Hok Hbad].
    destruct (fan_ok f); simpl.
    + destruct Hok as [fans' ->]; [done|]. simpl. apply IH.
    + split; [done|]. intros _.
      destruct Hbad as [-> | ->]; [done| |]; simpl; eauto.
Qed.

(** X3.  Over a "Fans" list, [read_fans] returns a reading exactly when
    every entry is a dictionary with "Name", "Reading" and "ReadingUnits"
    whose name can be hashed; one entry that is not makes the whole call
    raise [KeyError] or [TypeError], and no partial reading is returned. *)
Theorem read_fans_all_or_nothing (C : Controller) (d : list (string * pyval))
    (fs : list pyval) :
  get_thermal = Ok (VDict d) ->
  assoc d "Fans" = Some (VList fs) ->
  ((∃ r, read_fans = Ok r) ↔ forallb fan_ok fs = true) ∧
  (forallb fan_ok fs = false ->
     read_fans = Raise KeyError ∨ read_fans = Raise TypeError).
Proof.
  intros E Hd. rewrite (read_fans_unfold _ E). simpl. rewrite Hd. simpl.
  destruct (read_fans_loop_fan_ok fs []) as [Hok Hbad].
  destruct (forallb fan_ok fs).
  - destruct Hok as [fans ->]; [done|]. simpl. split; [|done]. split; eauto.
  - split.
    + split; [|done]. intros [r Hr].
      destruct Hbad as [Hb|Hb]; [done| |]; rewrite Hb in Hr; done.
    + intros _. destruct Hbad as [-> | ->]; [done| |]; simpl; eauto.
Qed.

Lemma read_fans_all_or_nothing_witness :
  (@read_fans (with_thermal (VDict [("Fans",
      VList [fan "Fan 1" 47; VDict [("Name", VStr "Fan 2")]])]))
   = Raise KeyError ∨
   @read_fans (with_thermal (VDict [("Fans",
      VList [fan "Fan 1" 47; VDict [("Name", VStr "Fan 2")]])]))
   = Raise TypeError) ∧
  ∃ r, @read_fans (with_thermal (VDict [("Fans", VList [fan "Fan 1" 47])])) = Ok r.
Proof.
  split.
  - destruct (read_fans_all_or_nothing
                (with_thermal (VDict [("Fans",
                   VList [fan "Fan 1" 47; VDict [("Name", VStr "Fan 2")]])]))
                [("Fans", VList [fan "Fan 1" 47; VDict [("Name", VStr "Fan 2")]])]
                [fan "Fan 1" 47; VDict [("Name", VStr "Fan 2")]]) as [_ Hbad];
      [reflexivity|reflexivity|].
    apply Hbad. reflexivity.
  - destruct (read_fans_all_or_nothing
                (with_thermal (VDict [("Fans", VList [fan "Fan 1" 47])]))
                [("Fans", VList [fan "Fan 1" 47])]
                [fan "Fan 1" 47]) as [[_ Hok] _];
      [reflexivity|reflexivity|].
    apply Hok. reflexivity.
Defined.

(** ** X4: what [read_fans] binds a label to *)

Lemma put_lookup_at items (i : nat) it : ∀ d,
  items !! i = Some it ->
  (∀ (j : nat) it', (i < j)%nat -> items !! j = Some it' -> it'.1 ≠ it.1) ->
  dict_get (foldl put d items) (KStr it.1) = Some it.2.
Proof.
  intros d Hi Hlater. rewrite put_lookup_last.
  assert (Hfilter : filter (fun it0 : string * metric => it0.1 = it.1)
                      (drop (S i) items) = []).
  { destruct (filter _ (drop (S i) items)) as [|x l] eqn:Hf; [done|]. exfalso.
    assert (Hx : x ∈ filter (fun it0 : string * metric => it0.1 = it.1)
                       (drop (S i) items)) by (rewrite Hf; left).
    apply list_elem_of_filter in Hx as [Hx1 Hx].
    apply list_elem_of_lookup_1 in Hx as [k Hk]. rewrite lookup_drop in Hk.
    apply (Hlater (S i + k)%nat x); [lia|done|done]. }
  rewrite <- (take_drop_middle _ _ _ Hi).
  rewrite filter_app, filter_cons, decide_True, Hfilter, last_snoc by done.
  reflexivity.
Qed.

(** X4.  With every entry of "Fans" carrying a string "Name", a "Reading"
    and a "ReadingUnits", the label of an entry that no later entry repeats
    is bound to the metric made of that label, that reading and that unit,
    unchanged. *)
Theorem read_fans_entry (C : Controller) (d : list (string * pyval))
    (fs : list pyval) :
  get_thermal = Ok (VDict d) ->
  assoc d "Fans" = Some (VList fs) ->
  Forall (fun f => is_Some (fan_fields f)) fs ->
  ∃ fans, read_fans = Ok [("Fan", fans)] ∧
    ∀ (i : nat) f n r u, fs !! i = Some f -> fan_fields f = Some (n, r, u) ->
      (∀ (j : nat) g, (i < j)%nat -> fs !! j = Some g -> fan_label g ≠ Some n) ->
      dict_get fans (KStr n)
      = Some (mk_metric ClsMonitorMetric (NKey (KStr n)) r u).
Proof.
  intros E Hd Hfs. rewrite (read_fans_unfold _ E). simpl. rewrite Hd. simpl.
  destruct (fans_loop fs Hfs) as (items & Hitems & Hloop).
  rewrite Hloop. simpl. eexists. split; [reflexivity|].
  intros i f n r u Hi Hf Hlater.
  destruct (Forall2_lookup_l _ _ _ _ _ Hitems Hi) as (it & Hit & r' & u' & Hf' & Hm).
  rewrite Hf in Hf'. injection Hf' as Hn <- <-.
  rewrite Hn. change (mk_metric ClsMonitorMetric (NKey (KStr it.1)) r u)
    with (MonitorMetric (NKey (KStr it.1)) r u).
  rewrite <- Hm. apply (put_lookup_at items i); [done|].
  intros j it' Hlt Hj Heq.
  destruct (Forall2_lookup_r _ _ _ _ _ Hitems Hj) as (g & Hg & Hst).
  apply fan_stored_label in Hst. apply (Hlater j g Hlt Hg). congruence.
Qed.

Lemma read_fans_entry_witness :
  ∃ fans,
    @read_fans (with_thermal (VDict [("Fans", VList [fan "Fan 1" 47; fan "Fan 2" 0])]))
    = Ok [("Fan", fans)] ∧
    dict_get fans (KStr "Fan 2")
    = Some (mk_metric ClsMonitorMetric (NKey (KStr "Fan 2")) (VInt 0) (VStr "Percent")).
Proof.
  destruct (read_fans_entry
              (with_thermal (VDict [("Fans", VList [fan "Fan 1" 47; fan "Fan 2" 0])]))
              [("Fans", VList [fan "Fan 1" 47; fan "Fan 2" 0])]
              [fan "Fan 1" 47; fan "Fan 2" 0]) as (fans & Hread & Hentry).
  - reflexivity.
  - reflexivity.
  - repeat constructor; eexists; reflexivity.
  - exists fans. split; [exact Hread|].
    apply (Hentry 1%nat (fan "Fan 2" 0)); [reflexivity|reflexivity|].
    intros [|[|[|j]]] g Hlt Hg; (lia || discriminate).
Defined.

(** ** X5: a group never holds the same key twice *)

(** X5.  Whatever the documents, the group of a reading returned by
    [read_fans], [read_power_supplies] or [read_power_consumption] holds
    no two keys that are equal under [==] (so not "1" twice, and not both
    [1] and [True]). *)
Theorem reads_have_distinct_keys (C : Controller) :
  (∀ fans, read_fans = Ok [("Fan", fans)] -> distinct_keys fans) ∧
  (∀ psus, read_power_supplies = Ok [("Power", psus)] -> distinct_keys psus) ∧
  (∀ chassis, read_power_consumption = Ok [("Power", chassis)] ->
     distinct_keys chassis).
Proof.
  split; [|split].
  - intros fans (doc & it & fs & fans' & _ & _ & _ & Hloop & Hr)%read_fans_Ok.
    injection Hr as ->.
    eapply (py_for_preserves read_fans_body distinct_keys); [|exact Hloop|done].
    intros s f s' (label & r & u & k & _ & _ & _ & _ & ->)%read_fans_body_Ok Hs.
    by apply dict_set_distinct.
  - intros psus (doc & it & ps & psus' & _ & _ & _ & Hloop & Hr)%read_power_supplies_Ok.
    injection Hr as ->.
    eapply (py_for_preserves read_power_supplies_body distinct_keys);
      [|exact Hloop|done].
    intros s p s' (n & tok & toks & w & _ & _ & _ & ->)%read_power_supplies_body_Ok Hs.
    by apply dict_set_distinct.
  - intros c (doc & it & ps & c' & _ & _ & _ & Hloop & Hr)%read_power_consumption_Ok.
    injection Hr as ->.
    eapply (py_for_preserves read_power_consumption_body distinct_keys);
      [|exact Hloop|done].
    intros s p s' (w & _ & ->)%read_power_consumption_body_Ok Hs.
    by apply dict_set_distinct.
Qed.

Lemma reads_have_distinct_keys_witness :
  distinct_keys
    [(KInt 1, mk_metric ClsMonitorMetric (NKey (KBool true)) (VInt 0) (VStr "Percent"))].
Proof.
  destruct (reads_have_distinct_keys
              (with_thermal (VDict [("Fans",
                 VList [VDict [("Name", VInt 1); ("Reading", VInt 47);
                               ("ReadingUnits", VStr "Percent")];
                        VDict [("Name", VBool true); ("Reading", VInt 0);
                               ("ReadingUnits", VStr "Percent")]])])))
    as [Hfans _].
  apply Hfans. reflexivity.
Defined.

(** ** X6: what the stored metrics look like *)

Lemma split_go_nonempty s : ∀ skip tok, Forall (fun t => t ≠ "") (split_go s skip tok).
Proof.
  assert (Hflush : ∀ tok, Forall (fun t => t ≠ "") (flush tok)).
  { intros [|c t]; simpl; [constructor|]. by repeat constructor. }
  induction s as [|c s IH]; intros skip tok; cbn [split_go]; [apply Hflush|].
  destruct skip; [|apply IH].
  destruct (ws_len (String c s)); [apply IH|].
  apply Forall_app. split; [apply Hflush|apply IH].
Qed.

Lemma dict_set_Forall_str (Q : string -> metric -> Prop) (d : pydict metric) n m :
  Forall (fun km => ∃ s, km.1 = KStr s ∧ Q s km.2) d -> Q n m ->
  Forall (fun km => ∃ s, km.1 = KStr s ∧ Q s km.2) (dict_set d (KStr n) m).
Proof.
  intros Hd Hm. induction Hd as [|[k0 m0] d (s & Hk & Hq) Hd IH]; simpl.
  - repeat constructor. by exists n.
  - simpl in Hk. subst k0. simpl. destruct (String.eqb s n) eqn:E.
    + apply String.eqb_eq in E as ->. constructor; [by exists n|done].
    + constructor; [by exists s|done].
Qed.

(** X6.  Whatever the power document, every entry of the group returned
    by [read_power_supplies] has a string key with a first token, and is
    bound to a Power metric, in Watts, whose name is that token; the name
    is never empty. *)
Theorem read_power_supplies_metrics (C : Controller) (psus : pydict metric) :
  read_power_supplies = Ok [("Power", psus)] ->
  Forall (fun km => ∃ n, km.1 = KStr n ∧
            ∃ tok, first_token n = Some tok ∧ tok ≠ "" ∧
              cls km.2 = ClsPower ∧ get_name km.2 = NKey (KStr tok) ∧
              get_unit km.2 = VStr "Watts") psus.
Proof.
  intros (doc & it & ps & psus' & _ & _ & _ & Hloop & Hr)%read_power_supplies_Ok.
  injection Hr as ->.
  eapply (py_for_preserves read_power_supplies_body
            (Forall (fun km => ∃ n, km.1 = KStr n ∧
               ∃ tok, first_token n = Some tok ∧ tok ≠ "" ∧
                 cls km.2 = ClsPower ∧ get_name km.2 = NKey (KStr tok) ∧
                 get_unit km.2 = VStr "Watts")));
    [|exact Hloop|constructor].
  intros s p s' (n & tok & toks & w & _ & Hsplit & _ & ->)%read_power_supplies_body_Ok Hs.
  apply (dict_set_Forall_str
           (fun n m => ∃ tok, first_token n = Some tok ∧ tok ≠ "" ∧
              cls m = ClsPower ∧ get_name m = NKey (KStr tok) ∧
              get_unit m = VStr "Watts")); [done|].
  exists tok. unfold first_token. rewrite Hsplit.
  split; [done|]. split; [|done].
  pose proof (split_go_nonempty n 0 "") as Hne.
  unfold str_split in Hsplit. rewrite Hsplit in Hne.
  by apply Forall_cons in Hne as [Hne _].
Qed.

Lemma read_power_supplies_metrics_witness :
  Forall (fun km => ∃ n, km.1 = KStr n ∧
            ∃ tok, first_token n = Some tok ∧ tok ≠ "" ∧
              cls km.2 = ClsPower ∧ get_name km.2 = NKey (KStr tok) ∧
              get_unit km.2 = VStr "Watts")
    [(KStr "PSU 1", Power (NKey (KStr "PSU")) (VInt 50))].
Proof.
  apply (read_power_supplies_metrics (with_power two_psu_1)). reflexivity.
Defined.



(** ** X8: a name without white space is its own token *)

Lemma append_cons (a : ascii) (s t : string) :
  String a s +:+ t = String a (s +:+ t).
Proof. reflexivity. Qed.

Lemma append_snoc_cons (tok : string) (c : ascii) (s : string) :
  (tok +:+ String c "") +:+ s = tok +:+ String c s.
Proof.
  induction tok as [|a tok IH]; [done|]. rewrite !append_cons. by rewrite IH.
Qed.

Lemma append_empty_r (s : string) : s +:+ "" = s.
Proof. induction s as [|a s IH]; [done|]. rewrite append_cons. by rewrite IH. Qed.

Lemma split_go_no_space s : ∀ tok,
  no_space s = true -> tok +:+ s ≠ "" -> split_go s 0 tok = [tok +:+ s].
Proof.
  induction s as [|c s IH]; intros tok Hns Hne.
  - simpl. rewrite append_empty_r in *. by destruct tok.
  - cbn [split_go]. cbn [no_space] in Hns.
    destruct (ws_len (String c s)); [|done].
    rewrite IH; [|done|].
    + by rewrite append_snoc_cons.
    + rewrite append_snoc_cons. by destruct tok.
Qed.

(** X8.  When every entry of "PowerSupplies" has a "PowerInputWatts" and a
    non-empty "Name" without any white space, [read_power_supplies] names
    each metric by its key: the asymmetry between key and name only shows
    for names that contain white space. *)
Theorem read_power_supplies_plain_names (C : Controller)
    (d : list (string * pyval)) (ps : list pyval) :
  get_power = Ok (VDict d) ->
  assoc d "PowerSupplies" = Some (VList ps) ->
  Forall (fun p => ∃ n w, psu_fields p = Some (n, w) ∧ n ≠ "" ∧ no_space n = true) ps ->
  ∃ psus, read_power_supplies = Ok [("Power", psus)] ∧
          Forall (fun km => get_name km.2 = NKey km.1) psus.
Proof.
  intros E Hd Hps. rewrite (read_power_supplies_unfold _ E). simpl.
  rewrite Hd. simpl. clear E Hd.
  assert (Hloop : ∀ s, Forall (fun km : hkey * metric => get_name km.2 = NKey km.1) s ->
            ∃ s', py_for ps read_power_supplies_body s = Ok s' ∧
                  Forall (fun km : hkey * metric => get_name km.2 = NKey km.1) s').
  { induction Hps as [|p ps (n & w & Hp & Hne & Hns) _ IH]; intros s Hs; simpl.
    - eauto.
    - assert (Htok : first_token n = Some n).
      { unfold first_token, str_split. by rewrite split_go_no_space. }
      rewrite (read_power_supplies_body_step _ _ _ _ _ Hp Htok). simpl.
      apply IH. clear IH. induction Hs as [|[k0 m0] s Hk0 Hs IHs]; simpl.
      + by repeat constructor.
      + destruct (key_eqb k0 (KStr n)) eqn:Ek.
        * constructor; [|done]. simpl. destruct k0; try done.
          simpl in Ek. by apply String.eqb_eq in Ek as ->.
        * by constructor. }
  destruct (Hloop []) as (psus & -> & Hpsus); [constructor|].
  simpl. eauto.
Qed.

Lemma read_power_supplies_plain_names_witness :
  ∃ psus,
    @read_power_supplies (with_power (VDict [("PowerSupplies", VList [psu "PSU1" 42])]))
    = Ok [("Power", psus)] ∧
    Forall (fun km => get_name km.2 = NKey km.1) psus.
Proof.
  apply (read_power_supplies_plain_names
           (with_power (VDict [("PowerSupplies", VList [psu "PSU1" 42])]))
           [("PowerSupplies", VList [psu "PSU1" 42])] [psu "PSU1" 42]).
  - reflexivity.
  - reflexivity.
  - repeat constructor. exists "PSU1", (VInt 42).
    split; [reflexivity|]. split; [discriminate|reflexivity].
Defined.

(** ** X9: equality of metrics with scalar values *)

Lemma py_eq_scalar_refl v : is_scalar v = true -> py_eq v v = true.
Proof.
  destruct v as [|[]|z|s| |]; try done; intros _; unfold py_eq.
  - apply Z.eqb_refl.
  - apply String.eqb_refl.
Qed.

Lemma py_eq_scalar_sym v w :
  is_scalar v = true -> is_scalar w = true -> py_eq v w = py_eq w v.
Proof.
  destruct v as [|[]|z|s| |], w as [|[]|z'|s'| |];
    try done; intros _ _; unfold py_eq, bool_to_Z;
    first [apply Z.eqb_sym | apply String.eqb_sym].
Qed.

Lemma py_eq_scalar_trans u v w :
  is_scalar u = true -> is_scalar v = true -> is_scalar w = true ->
  py_eq u v = true -> py_eq v w = true -> py_eq u w = true.
Proof.
  destruct u as [|[]|x|s| |], v as [|[]|y|t| |], w as [|[]|z|r| |];
    try done; intros _ _ _; unfold py_eq, bool_to_Z, Bool.eqb;
    rewrite ?Z.eqb_eq, ?String.eqb_eq; congruence.
Qed.

(** X9.  On metrics whose value and unit are not containers, [==] is an
    equivalence: every such metric equals itself, the comparison does not
    depend on the side, and it is transitive. *)
Theorem metric_eq_equivalence (m1 m2 m3 : metric) :
  is_scalar (m_value m1) = true -> is_scalar (m_unit m1) = true ->
  is_scalar (m_value m2) = true -> is_scalar (m_unit m2) = true ->
  is_scalar (m_value m3) = true -> is_scalar (m_unit m3) = true ->
  metric_eq m1 m1 = true ∧
  metric_eq m1 m2 = metric_eq m2 m1 ∧
  (metric_eq m1 m2 = true -> metric_eq m2 m3 = true -> metric_eq m1 m3 = true).
Proof.
  intros Hv1 Hu1 Hv2 Hu2 Hv3 Hu3.
  unfold metric_eq, get_name, get_value, get_unit. split; [|split].
  - by rewrite String.eqb_refl, !py_eq_scalar_refl.
  - by rewrite String.eqb_sym, (py_eq_scalar_sym (m_value m1)),
      (py_eq_scalar_sym (m_unit m1)).
  - rewrite !andb_true_iff, !String.eqb_eq.
    intros [[Hn12 Hv12] Hu12] [[Hn23 Hv23] Hu23].
    split; [split|].
    + congruence.
    + by apply (py_eq_scalar_trans _ (m_value m2)).
    + by apply (py_eq_scalar_trans _ (m_unit m2)).
Qed.

Lemma metric_eq_equivalence_witness :
  metric_eq (Temperature (NThermal CPU) (VInt 1)) (Temperature (NThermal CPU) (VInt 1)) = true ∧
  metric_eq (Temperature (NThermal CPU) (VInt 1)) (Temperature (NKey (KStr "CPU")) (VBool true))
  = metric_eq (Temperature (NKey (KStr "CPU")) (VBool true)) (Temperature (NThermal CPU) (VInt 1)).
Proof.
  destruct (metric_eq_equivalence
              (Temperature (NThermal CPU) (VInt 1))
              (Temperature (NKey (KStr "CPU")) (VBool true))
              (Temperature (NThermal CPU) (VInt 1))) as (Hr & Hs & _);
    try reflexivity.
  split; [exact Hr|exact Hs].
Defined.

(** ** X10: the display strings of the categories *)

(** X10.  The display string tells the categories apart: two thermal
    contexts with the same string are the same context, and no thermal
    context prints as the fan category "Fan" or the power category
    "Power". *)
Theorem category_strings_distinct (c1 c2 : ThermalContext) (f : FanContext)
    (p : PowerContext) :
  (ThermalContext_str c1 = ThermalContext_str c2 -> c1 = c2) ∧
  ThermalContext_str c1 ≠ FanContext_str f ∧
  ThermalContext_str c1 ≠ PowerContext_str p ∧
  FanContext_str f ≠ PowerContext_str p.
Proof.
  destruct f, p. split; [|split; [|split]].
  - destruct c1, c2; simpl; intros Heq; try reflexivity; discriminate.
  - destruct c1; discriminate.
  - destruct c1; discriminate.
  - discriminate.
Qed.

(** * Further properties of the local discovery *)

Lemma parse_row_binding m row :
  parse_row m row
  = (b ← row_binding row;
     Ok (match b with Some kv => <[kv.1 := kv.2]> m | None => m end)).
Proof.
  unfold parse_row, row_binding.
  destruct (bytes_contains ": " row); [|done].
  destruct (bytes_split1 ": " row) as [|key [|value [|? ?]]]; try done.
  destruct (negb _); [|done].
  destruct (decode (strip value)); simpl; try done.
  destruct (decode (strip key)); simpl; done.
Qed.

Lemma parse_rows_handled rows : ∀ m,
  parse_rows rows m = (store_all (handled rows).1 m, (handled rows).2).
Proof.
  induction rows as [|row rows IH]; intros m; simpl; [done|].
  rewrite parse_row_binding.
  destruct (row_binding row) as [[kv|]| |]; simpl; try done;
    rewrite IH; reflexivity.
Qed.

Lemma store_all_lookup kvs k : ∀ m,
  store_all kvs m !! k
  = match last (filter (fun kv => kv.1 = k) kvs) with
    | Some kv => Some kv.2
    | None => m !! k
    end.
Proof.
  unfold store_all.
  induction kvs as [|[k0 v0] kvs IH]; intros m; simpl; [done|].
  rewrite IH, filter_cons. simpl.
  destruct (decide (k0 = k)) as [->|Hne].
  - rewrite last_cons, lookup_insert_eq.
    by destruct (last (filter _ kvs)).
  - by rewrite lookup_insert_ne.
Qed.

Lemma store_all_idemp kvs m : store_all kvs (store_all kvs m) = store_all kvs m.
Proof.
  apply map_eq. intros k. rewrite !store_all_lookup.
  by destruct (last (filter _ kvs)).
Qed.

(** X11.  Reading the same output a second time changes nothing: the
    mapping and the outcome are those of the first reading. *)
Theorem parse_cmd_idempotent (stdout stderr : string) (m : gmap string string) :
  parse_cmd stdout stderr (parse_cmd stdout stderr m).1 = parse_cmd stdout stderr m.
Proof.
  unfold parse_cmd. rewrite !parse_rows_handled. simpl.
  by rewrite store_all_idemp.
Qed.

Lemma bytes_split_nl_nonempty s : bytes_split_nl s ≠ [].
Proof.
  destruct s as [|c s]; simpl; [done|].
  destruct (code c =? 10); [done|]. by destruct (bytes_split_nl s).
Qed.

Lemma bytes_split_nl_app s1 s2 :
  bytes_split_nl (s1 +:+ String "010"%char s2)
  = bytes_split_nl s1 ++ bytes_split_nl s2.
Proof.
  induction s1 as [|c s1 IH]; [done|].
  rewrite append_cons. simpl. rewrite IH.
  destruct (code c =? 10); [done|].
  pose proof (bytes_split_nl_nonempty s1).
  by destruct (bytes_split_nl s1).
Qed.

Lemma parse_rows_app rows1 rows2 m :
  parse_rows (rows1 ++ rows2) m
  = match parse_rows rows1 m with
    | (m1, Ok _) => parse_rows rows2 m1
    | (m1, r) => (m1, r)
    end.
Proof.
  revert m. induction rows1 as [|row rows1 IH]; intros m; simpl; [done|].
  destruct (parse_row m row); simpl; [apply IH|done|done].
Qed.

(** X12.  Reading two outputs joined by a newline is reading the first and
    then, when that reading returns, the second on the mapping the first
    left; when the first reading raises, the joined reading stops there with
    the same mapping and the same exception. *)
Theorem parse_cmd_concat (s1 s2 stderr : string) (m : gmap string string) :
  parse_cmd (s1 +:+ String "010"%char s2) stderr m
  = match parse_cmd s1 stderr m with
    | (m1, Ok _) => parse_cmd s2 stderr m1
    | (m1, r) => (m1, r)
    end.
Proof.
  unfold parse_cmd. rewrite bytes_split_nl_app, parse_rows_app.
  destruct (parse_rows (bytes_split_nl s1) m) as [m1 [[]|e|f]]; simpl; done.
Qed.

Lemma row_binding_kv row b : row_binding row = Ok b -> b = row_kv row.
Proof.
  unfold row_binding, row_kv.
  destruct (bytes_contains ": " row); [|congruence].
  destruct (bytes_split1 ": " row) as [|key [|value [|? ?]]]; try done.
  destruct (negb _); [|congruence].
  destruct (decode (strip value)) as [v| |] eqn:Ev; simpl; try done.
  destruct (decode (strip key)) as [k| |] eqn:Ek; simpl; try done.
  apply decode_Ok in Ev as ->. apply decode_Ok in Ek as ->. congruence.
Qed.

Lemma handled_Ok rows :
  (handled rows).2 = Ok tt -> (handled rows).1 = omap row_kv rows.
Proof.
  induction rows as [|row rows IH]; simpl; [done|].
  destruct (row_binding row) as [b| |] eqn:Eb; simpl; try done.
  intros Hr. apply row_binding_kv in Eb as ->. rewrite (IH Hr).
  by destruct (row_kv row).
Qed.

(** X13.  When [parse_cmd] returns, it returns the mapping it leaves in
    [self.bmc]; a key is bound there to the stripped value of the last row
    of the output that has this stripped key, and to what it was bound
    before when no row has it.  So [get_ip] then gives the address of the
    last "IP Address" row, and behaves as before the reading when there is
    no such row. *)
Theorem parse_cmd_last_row_wins (stdout stderr : string)
    (m m' ret : gmap string string) :
  parse_cmd stdout stderr m = (m', Ok ret) ->
  ret = m' ∧
  (∀ k, m' !! k
        = match last (filter (fun kv => kv.1 = k)
                        (omap row_kv (bytes_split_nl stdout))) with
          | Some kv => Some kv.2
          | None => m !! k
          end) ∧
  get_ip m'
  = match last (filter (fun kv => kv.1 = "IP Address")
                  (omap row_kv (bytes_split_nl stdout))) with
    | Some kv => Ok kv.2
    | None => get_ip m
    end.
Proof.
  unfold parse_cmd. rewrite parse_rows_handled.
  destruct ((handled (bytes_split_nl stdout)).2) as [[]| |] eqn:Hr; try done.
  simpl. intros [= <- <-]. split; [done|].
  rewrite (handled_Ok _ Hr).
  assert (Hlookup : ∀ k,
    store_all (omap row_kv (bytes_split_nl stdout)) m !! k
    = match last (filter (fun kv : string * string => kv.1 = k)
                    (omap row_kv (bytes_split_nl stdout))) with
      | Some kv => Some kv.2
      | None => m !! k
      end) by (intros k; apply store_all_lookup).
  split; [exact Hlookup|].
  unfold get_ip. rewrite Hlookup.
  by destruct (last (filter _ (omap row_kv (bytes_split_nl stdout)))).
Qed.

Lemma parse_cmd_last_row_wins_witness :
  get_ip (parse_cmd lan_print "" ∅).1 = Ok "10.0.0.2".
Proof.
  destruct (parse_cmd_last_row_wins lan_print "" ∅
              (parse_cmd lan_print "" ∅).1 (parse_cmd lan_print "" ∅).1)
    as (_ & _ & Hip).
  - vm_compute. reflexivity.
  - rewrite Hip. vm_compute. reflexivity.
Defined.

(** ** The version of the tool *)

Lemma flush_nonempty tok : tok ≠ "" -> flush tok = [tok].
Proof. by destruct tok. Qed.

Lemma bytes_split_go_end t : ∀ tok,
  no_bspace t = true -> tok +:+ t ≠ "" -> bytes_split_go t tok = [tok +:+ t].
Proof.
  induction t as [|a t IH]; intros tok Ht Hne.
  - rewrite append_empty_r in *. simpl. by apply flush_nonempty.
  - simpl in *. apply andb_prop in Ht as [Ha Ht].
    apply negb_true_iff in Ha. rewrite Ha.
    rewrite IH; [|done|].
    + by rewrite append_snoc_cons.
    + rewrite append_snoc_cons. by destruct tok.
Qed.

Lemma bytes_split_go_token t : ∀ tok c s,
  no_bspace t = true -> is_bspace c = true -> tok +:+ t ≠ "" ->
  bytes_split_go (t +:+ String c s) tok = (tok +:+ t) :: bytes_split_go s "".
Proof.
  induction t as [|a t IH]; intros tok c s Ht Hc Hne.
  - rewrite append_empty_r in *. simpl. rewrite Hc.
    by rewrite flush_nonempty.
  - rewrite append_cons. simpl in *. apply andb_prop in Ht as [Ha Ht].
    apply negb_true_iff in Ha. rewrite Ha.
    rewrite IH; [|done|done|].
    + by rewrite append_snoc_cons.
    + rewrite append_snoc_cons. by destruct tok.
Qed.

(** X14.  For an output that starts with three tokens, each followed by a
    white-space character, [parse_version] returns the third token,
    whatever follows; for an output of two tokens only it raises
    [IndexError], as it does for an empty output. *)
Theorem parse_version_third_token (t1 t2 t3 rest stderr : string) (c1 c2 c3 : ascii) :
  t1 ≠ "" -> t2 ≠ "" -> t3 ≠ "" ->
  no_bspace t1 = true -> no_bspace t2 = true -> no_bspace t3 = true ->
  is_bspace c1 = true -> is_bspace c2 = true -> is_bspace c3 = true ->
  parse_version (t1 +:+ String c1 (t2 +:+ String c2 (t3 +:+ String c3 rest))) stderr
  = Ok t3 ∧
  parse_version (t1 +:+ String c1 (t2 +:+ String c2 t3)) stderr = Ok t3 ∧
  parse_version (t1 +:+ String c1 t2) stderr = Raise IndexError ∧
  parse_version "" stderr = Raise IndexError.
Proof.
  intros H1 H2 H3 Hn1 Hn2 Hn3 Hc1 Hc2 Hc3. unfold parse_version, bytes_split.
  rewrite !(bytes_split_go_token t1 "") by done.
  rewrite !(bytes_split_go_token t2 "") by done.
  rewrite (bytes_split_go_token t3 "") by done.
  rewrite (bytes_split_go_end t3 "") by done.
  rewrite (bytes_split_go_end t2 "") by done.
  done.
Qed.

Lemma parse_version_third_token_witness :
  parse_version "ipmitool version 1.8.18
" "" = Ok "1.8.18".
Proof.
  refine (proj1 (parse_version_third_token "ipmitool" "version" "1.8.18" "" ""
                   " "%char " "%char "010"%char _ _ _ _ _ _ _ _ _));
    try reflexivity; discriminate.
Defined.

Lemma bytes_split_go_tokens s : ∀ tok,
  no_bspace tok = true ->
  Forall (fun t => t ≠ "" ∧ no_bspace t = true) (bytes_split_go s tok).
Proof.
  assert (Hflush : ∀ tok, no_bspace tok = true ->
            Forall (fun t => t ≠ "" ∧ no_bspace t = true) (flush tok)).
  { intros [|c t] Ht; simpl; [constructor|]. by repeat constructor. }
  assert (Hsnoc : ∀ tok c, no_bspace tok = true -> is_bspace c = false ->
            no_bspace (tok +:+ String c "") = true).
  { intros tok c Ht Hc. induction tok as [|a tok IH].
    - simpl. by rewrite Hc.
    - rewrite append_cons. cbn [no_bspace] in *.
      apply andb_prop in Ht as [Ha Ht]. rewrite Ha. simpl. by apply IH. }
  induction s as [|c s IH]; intros tok Ht; simpl; [by apply Hflush|].
  destruct (is_bspace c) eqn:Hc.
  - apply Forall_app. split; [by apply Hflush|by apply IH].
  - apply IH. by apply Hsnoc.
Qed.

(** X15.  A version that [parse_version] returns is never empty and holds
    no white space. *)
Theorem parse_version_is_token (stdout stderr version : string) :
  parse_version stdout stderr = Ok version ->
  version ≠ "" ∧ no_bspace version = true.
Proof.
  unfold parse_version, bytes_split.
  destruct (bytes_split_go stdout "" !! 2%nat) as [v|] eqn:Hv; [|done].
  intros [= <-].
  pose proof (bytes_split_go_tokens stdout "" eq_refl) as Htoks.
  rewrite Forall_forall in Htoks. apply Htoks.
  by eapply list_elem_of_lookup_2.
Qed.

Lemma parse_version_is_token_witness :
  "1.8.18" ≠ "" ∧ no_bspace "1.8.18" = true.
Proof.
  apply (parse_version_is_token "  ipmitool   version 1.8.18  extra" "").
  reflexivity.
Defined.

(** * Further properties of the connection setup *)

Lemma find_section_chosen w vname :
  find_section w [vname; "default"] ≠ "" ->
  find_section w [vname; "default"]
  = (if bool_decide (vname ∈ config_sections w) then vname else "default") ∧
  find_section w [vname; "default"] ∈ config_sections w.
Proof.
  simpl. case_bool_decide as Hv; [done|].
  case_bool_decide as Hd; done.
Qed.

Lemma bytes_contains_prefix p s : bytes_contains p (p +:+ s) = true.
Proof.
  assert (Hp : ∀ p s, after_prefix p (p +:+ s) = Some s).
  { clear. induction p as [|a p IH]; intros s; [by destruct s|].
    rewrite append_cons. simpl. by rewrite Ascii.eqb_refl. }
  destruct (p +:+ s) eqn:E; simpl.
  - rewrite <- E, Hp. done.
  - rewrite <- E, Hp. done.
Qed.

(** What a [connect_redfish] that returns has gone through. *)
Lemma connect_redfish_Ok w b self self' :
  connect_redfish w b self = Ok self' ->
  ∃ user pass ip,
    config_read_fails w = None ∧
    find_section w [vendor_name self; "default"] ≠ "" ∧
    config_value w (find_section w [vendor_name self; "default"]) "username"
    = inr user ∧
    config_value w (find_section w [vendor_name self; "default"]) "password"
    = inr pass ∧
    bmc b !! "IP Address" = Some ip ∧
    self' = mk_vendor (vendor_name self)
              (Some (mk_bmc (bmc b)
                 (Some (mk_session (next_id self)
                    (if negb (bytes_contains "https://" ip)
                     then "https://" +:+ ip else ip) user pass))))
              (trace self ++
               [EvReadConfig;
                EvNewClient (mk_session (next_id self)
                    (if negb (bytes_contains "https://" ip)
                     then "https://" +:+ ip else ip) user pass);
                EvLogin (mk_session (next_id self)
                    (if negb (bytes_contains "https://" ip)
                     then "https://" +:+ ip else ip) user pass)])
              (S (next_id self)).
Proof.
  unfold connect_redfish, log_event. cbn [vendor_name trace next_id vendor_bmc].
  set (sec := find_section w [vendor_name self; "default"]).
  unfold config_read.
  destruct (config_read_fails w) as [e|] eqn:Er; simpl; [done|].
  destruct (String.eqb sec "") eqn:Es; simpl; [done|].
  apply String.eqb_neq in Es.
  unfold config_get.
  destruct (config_value w sec "username") as [e|user] eqn:Eu; simpl; [done|].
  destruct (config_value w sec "password") as [e|pass] eqn:Ep; simpl; [done|].
  unfold get_ip. destruct (bmc b !! "IP Address") as [ip|] eqn:Ei; simpl; [|done].
  destruct (client_new_fails w _); simpl; [done|].
  destruct (login_fails w _); simpl; [done|].
  intros [= <-]. exists user, pass, ip.
  rewrite <- !app_assoc. simpl. done.
Qed.

(** X16.  [connect_redfish] lets no exception of the remote client out.
    An exception that leaves it is one the configuration parser raised,
    before the [try]: in [config_file.read], or in [config_file.get] for
    "username" or "password".  Every failure of the client, at construction
    or at login, and a missing address, go through [h.fatal] instead. *)
Theorem connect_redfish_raises_only_config_errors (w : world) (b : bmc_obj)
    (self : vendor_obj) (e : exn) :
  connect_redfish w b self = Raise e ->
  config_read_fails w = Some e ∨
  ∃ section opt, (opt = "username" ∨ opt = "password") ∧
                 config_value w section opt = inl e.
Proof.
  unfold connect_redfish, log_event. cbn [vendor_name trace next_id vendor_bmc].
  set (sec := find_section w [vendor_name self; "default"]).
  unfold config_read.
  destruct (config_read_fails w) as [e0|]; simpl; [intros [= ->]; by left|].
  destruct (String.eqb sec "") eqn:Es; simpl; [done|].
  unfold config_get.
  destruct (config_value w sec "username") as [e0|user] eqn:Eu; simpl.
  { intros [= ->]. right. exists sec, "username". eauto. }
  destruct (config_value w sec "password") as [e0|pass] eqn:Ep; simpl.
  { intros [= ->]. right. exists sec, "password". eauto. }
  unfold get_ip. destruct (bmc b !! "IP Address") as [ip|]; simpl; [|done].
  destruct (client_new_fails w _); simpl; [done|].
  destruct (login_fails w _); simpl; done.
Qed.

Lemma connect_redfish_raises_only_config_errors_witness :
  ∃ section opt,
    (opt = "username" ∨ opt = "password") ∧
    config_value
      (mk_world "" "" None ["default"]
         (fun _ opt => if String.eqb opt "username" then inr (Some "admin")
                       else inl InterpolationSyntaxError)
         (fun _ => Some RetriesExhaustedError) (fun _ => None))
      section opt
    = inl InterpolationSyntaxError.
Proof.
  destruct (connect_redfish_raises_only_config_errors
              (mk_world "" "" None ["default"]
                 (fun _ opt => if String.eqb opt "username" then inr (Some "admin")
                               else inl InterpolationSyntaxError)
                 (fun _ => Some RetriesExhaustedError) (fun _ => None))
              (mk_bmc {["IP Address" := "10.0.0.1"]} None) (new_Vendor "Hpe")
              InterpolationSyntaxError) as [Hread|Hget].
  - vm_compute. reflexivity.
  - discriminate.
  - exact Hget.
Defined.

(** X17.  A [connect_redfish] that returns has asked the parser for
    "username" and "password" in the section named after the vendor when
    [sections()] lists it, and in "default" otherwise, and the session it
    built carries the two values [config_file.get] returned. *)
Theorem connect_redfish_credentials (w : world) (b : bmc_obj)
    (self self' : vendor_obj) :
  connect_redfish w b self = Ok self' ->
  ∃ user pass c,
    (if bool_decide (vendor_name self ∈ config_sections w)
     then vendor_name self else "default") ∈ config_sections w ∧
    config_value w
      (if bool_decide (vendor_name self ∈ config_sections w)
       then vendor_name self else "default") "username" = inr user ∧
    config_value w
      (if bool_decide (vendor_name self ∈ config_sections w)
       then vendor_name self else "default") "password" = inr pass ∧
    current_session self' = Some c ∧
    sess_username c = user ∧ sess_password c = pass.
Proof.
  intros (user & pass & ip & _ & Hne & Hu & Hp & _ & ->)%connect_redfish_Ok.
  destruct (find_section_chosen _ _ Hne) as [Hsec Hin].
  rewrite Hsec in Hu, Hp, Hin.
  exists user, pass. eexists. done.
Qed.

Lemma connect_redfish_credentials_witness :
  ∃ c, current_session
         (mk_vendor "Hpe"
            (Some (mk_bmc {["IP Address" := "10.0.0.1"]}
               (Some (mk_session 0 "https://10.0.0.1" (Some "hpe-user") (Some "hpe-pass")))))
            [EvReadConfig;
             EvNewClient (mk_session 0 "https://10.0.0.1" (Some "hpe-user") (Some "hpe-pass"));
             EvLogin (mk_session 0 "https://10.0.0.1" (Some "hpe-user") (Some "hpe-pass"))]
            1) = Some c ∧
       sess_username c = Some "hpe-user".
Proof.
  destruct (connect_redfish_credentials
              (plain_world ""
                 [("default", [("username", Some "admin"); ("password", Some "secret")]);
                  ("Hpe", [("username", Some "hpe-user"); ("password", Some "hpe-pass")])]
                 (fun _ => None) (fun _ => None))
              (mk_bmc {["IP Address" := "10.0.0.1"]} None) (new_Vendor "Hpe")
              (mk_vendor "Hpe"
                 (Some (mk_bmc {["IP Address" := "10.0.0.1"]}
                    (Some (mk_session 0 "https://10.0.0.1" (Some "hpe-user") (Some "hpe-pass")))))
                 [EvReadConfig;
                  EvNewClient (mk_session 0 "https://10.0.0.1" (Some "hpe-user") (Some "hpe-pass"));
                  EvLogin (mk_session 0 "https://10.0.0.1" (Some "hpe-user") (Some "hpe-pass"))]
                 1))
    as (user & pass & c & _ & Hu & _ & Hc & Hcu & _).
  - vm_compute. reflexivity.
  - exists c. split; [exact Hc|]. rewrite Hcu.
    vm_compute in Hu. congruence.
Defined.

(** X18.  A [connect_redfish] that returns has found the address under
    "IP Address" in the discovery mapping, which it leaves as it was; the
    URL of the session is that address, with "https://" put in front unless
    the address already contains it, so the URL always contains
    "https://". *)
Theorem connect_redfish_url (w : world) (b : bmc_obj) (self self' : vendor_obj) :
  connect_redfish w b self = Ok self' ->
  ∃ ip c,
    bmc b !! "IP Address" = Some ip ∧
    vendor_bmc self' = Some (mk_bmc (bmc b) (Some c)) ∧
    base_url c = (if bytes_contains "https://" ip then ip else "https://" +:+ ip) ∧
    bytes_contains "https://" (base_url c) = true.
Proof.
  intros (user & pass & ip & _ & _ & _ & _ & Hip & ->)%connect_redfish_Ok.
  exists ip. eexists. simpl. split; [done|]. split; [done|].
  destruct (bytes_contains "https://" ip) eqn:Ec; simpl.
  - done.
  - split; [done|]. apply (bytes_contains_prefix "https://" ip).
Qed.

Lemma connect_redfish_url_witness :
  ∃ c, vendor_bmc hpe_prepared
       = Some (mk_bmc {["IP Address" := "10.0.0.1"]} (Some c)) ∧
       base_url c = "https://10.0.0.1".
Proof.
  destruct (connect_redfish_url lab_world
              (mk_bmc {["IP Address" := "10.0.0.1"]} None)
              (mk_vendor "Hpe" (Some (mk_bmc {["IP Address" := "10.0.0.1"]} None))
                 [EvNewBMC; EvRun run_cmd] 0)
              hpe_prepared) as (ip & c & Hip & Hb & Hurl & _).
  - vm_compute. reflexivity.
  - exists c. split; [exact Hb|]. rewrite Hurl.
    vm_compute in Hip. injection Hip as <-. reflexivity.
Defined.

(** X19.  The failures of [connect_redfish] come in the order of the code.
    An exception of [config_file.read] leaves the method first.  Then,
    when [sections()] lists neither the vendor nor "default", the run ends
    with the list of the sections looked for, whatever the discovery found.
    With a section (of a non-empty name), an exception of [config_file.get]
    for "username", and after it for "password", leaves the method before
    the address is looked at.  With both values but no "IP Address" the run
    ends with "Cannot detect BMC ip".  With an address, a failure of the
    client at construction or at login ends the run with the message of its
    [except] clause. *)
Theorem connect_redfish_failures (w : world) (b : bmc_obj) (self : vendor_obj) :
  (∀ e, config_read_fails w = Some e -> connect_redfish w b self = Raise e) ∧
  (config_read_fails w = None ->
   vendor_name self ∉ config_sections w -> "default" ∉ config_sections w ->
   connect_redfish w b self = Fatal (MsgNoSection [vendor_name self; "default"])) ∧
  (config_read_fails w = None ->
   let sec := if bool_decide (vendor_name self ∈ config_sections w)
              then vendor_name self else "default" in
   sec ∈ config_sections w -> sec ≠ "" ->
   (∀ e, config_value w sec "username" = inl e ->
      connect_redfish w b self = Raise e) ∧
   (∀ user e, config_value w sec "username" = inr user ->
      config_value w sec "password" = inl e ->
      connect_redfish w b self = Raise e) ∧
   (∀ user pass,
      config_value w sec "username" = inr user ->
      config_value w sec "password" = inr pass ->
      (bmc b !! "IP Address" = None ->
       connect_redfish w b self = Fatal (Msg "Cannot detect BMC ip")) ∧
      (∀ ip e,
         bmc b !! "IP Address" = Some ip ->
         let url := if bytes_contains "https://" ip then ip else "https://" +:+ ip in
         (client_new_fails w url = Some e ∨
          (client_new_fails w url = None ∧ login_fails w url = Some e)) ->
         connect_redfish w b self = Fatal (login_handler url e)))).
Proof.
  split; [|split].
  - intros e Hr. unfold connect_redfish, config_read. by rewrite Hr.
  - intros Hr Hv Hd. unfold connect_redfish, log_event, config_read.
    cbn [vendor_name trace next_id vendor_bmc]. rewrite Hr. simpl.
    rewrite !bool_decide_eq_false_2 by done. reflexivity.
  - intros Hr sec Hin Hne.
    assert (Hsec : find_section w [vendor_name self; "default"] = sec).
    { subst sec. simpl. case_bool_decide as Hv; [done|].
      by rewrite bool_decide_eq_true_2. }
    unfold connect_redfish, log_event, config_read.
    cbn [vendor_name trace next_id vendor_bmc].
    rewrite Hr, Hsec. apply String.eqb_neq in Hne. rewrite Hne.
    cbn [mbind result_bind]. unfold config_get. split; [|split].
    + intros e Hu. by rewrite Hu.
    + intros user e Hu Hp. by rewrite Hu, Hp.
    + intros user pass Hu Hp. rewrite Hu, Hp. cbn [mbind result_bind]. split.
      * intros Hip. unfold get_ip. by rewrite Hip.
      * intros ip e Hip. cbv zeta. intros Hfail. unfold get_ip. rewrite Hip.
        cbn [mbind result_bind negb].
        destruct (bytes_contains "https://" ip); cbn [negb];
          destruct Hfail as [Hnew|[Hnew Hlogin]];
          rewrite ?Hnew, ?Hlogin; reflexivity.
Qed.

Lemma connect_redfish_failures_witness :
  connect_redfish
    (plain_world ""
       [("default", [("username", Some "admin"); ("password", Some "secret")])]
       (fun _ => None) (fun _ => Some InvalidCredentialsError))
    (mk_bmc {["IP Address" := "10.0.0.1"]} None) (new_Vendor "Hpe")
  = Fatal (Msg "Invalid credentials for https://10.0.0.1") ∧
  connect_redfish (plain_world "" [] (fun _ => None) (fun _ => None))
    (mk_bmc ∅ None) (new_Vendor "Hpe")
  = Fatal (MsgNoSection ["Hpe"; "default"]) ∧
  connect_redfish
    (mk_world "" "" None ["default"]
       (fun _ opt => if String.eqb opt "username" then inr (Some "admin")
                     else inl InterpolationSyntaxError)
       (fun _ => None) (fun _ => None))
    (mk_bmc ∅ None) (new_Vendor "Hpe")
  = Raise InterpolationSyntaxError.
Proof.
  split; [|split].
  - destruct (connect_redfish_failures
      (plain_world ""
         [("default", [("username", Some "admin"); ("password", Some "secret")])]
         (fun _ => None) (fun _ => Some InvalidCredentialsError))
      (mk_bmc {["IP Address" := "10.0.0.1"]} None) (new_Vendor "Hpe"))
      as (_ & _ & Hsec).
    destruct Hsec as (_ & _ & Hcred);
      [reflexivity|vm_compute; left|discriminate|].
    destruct (Hcred (Some "admin") (Some "secret")) as [_ Hremote];
      [reflexivity|reflexivity|].
    apply (Hremote "10.0.0.1" InvalidCredentialsError); [reflexivity|].
    right. split; reflexivity.
  - destruct (connect_redfish_failures
      (plain_world "" [] (fun _ => None) (fun _ => None))
      (mk_bmc ∅ None) (new_Vendor "Hpe")) as (_ & Hnone & _).
    apply Hnone; [reflexivity| |]; apply not_elem_of_nil.
  - destruct (connect_redfish_failures
      (mk_world "" "" None ["default"]
         (fun _ opt => if String.eqb opt "username" then inr (Some "admin")
                       else inl InterpolationSyntaxError)
         (fun _ => None) (fun _ => None))
      (mk_bmc ∅ None) (new_Vendor "Hpe")) as (_ & _ & Hsec).
    destruct Hsec as (_ & Hpass & _);
      [reflexivity|vm_compute; left|discriminate|].
    apply (Hpass (Some "admin")); reflexivity.
Defined.

(** * Calling [prepare] several times *)

Lemma prepare_existing w self self' b :
  vendor_bmc self = Some b -> prepare w self = Ok self' ->
  ∃ c, trace self' = trace self ++ [EvReadConfig; EvNewClient c; EvLogin c] ∧
       vendor_bmc self' = Some (mk_bmc (bmc b) (Some c)) ∧
       sess_id c = next_id self ∧ next_id self' = S (next_id self).
Proof.
  intros Hb. unfold prepare. rewrite Hb. simpl.
  intros (user & pass & ip & _ & _ & _ & _ & _ & ->)%connect_redfish_Ok.
  eexists. simpl. done.
Qed.

(** X20.  [n] calls of [prepare] that return, on a vendor that has its
    controller, log in [n] times: they add [3 * n] events, each the reading
    of the configuration, the construction of a client or a login, and
    never the construction of a controller or a discovery; the discovery
    mapping stays as it was, and the session in place after the last call
    is the one built by that call. *)
Theorem prepare_times_reconnects (w : world) (n : nat) (self self' : vendor_obj)
    (b : bmc_obj) :
  vendor_bmc self = Some b ->
  prepare_times w n self = Ok self' ->
  ∃ evs b',
    trace self' = trace self ++ evs ∧ length evs = (3 * n)%nat ∧
    Forall (fun ev => ev = EvReadConfig ∨ ∃ c, ev = EvNewClient c ∨ ev = EvLogin c) evs ∧
    vendor_bmc self' = Some b' ∧ bmc b' = bmc b ∧
    next_id self' = (next_id self + n)%nat ∧
    ((0 < n)%nat -> ∃ c, redfish_obj b' = Some c ∧
                         S (sess_id c) = next_id self' ∧ last evs = Some (EvLogin c)).
Proof.
  revert self b. induction n as [|n IH]; intros self b Hb; simpl.
  - intros [= <-]. exists [], b. rewrite app_nil_r.
    split; [done|]. split; [done|]. split; [constructor|].
    split; [done|]. split; [done|]. split; lia.
  - destruct (prepare w self) as [self1| |] eqn:Hprep; simpl; try done.
    intros Htimes.
    destruct (prepare_existing _ _ _ _ Hb Hprep) as (c & Htr & Hb1 & Hid & Hnext).
    destruct (IH _ _ Hb1 Htimes)
      as (evs & b' & Htr' & Hlen & Hevs & Hb' & Hmap & Hnext' & Hlast).
    exists ([EvReadConfig; EvNewClient c; EvLogin c] ++ evs), b'.
    split; [by rewrite Htr', Htr, <- app_assoc|].
    split; [rewrite length_app; simpl; lia|].
    split.
    { apply Forall_app; split; [|done].
      apply Forall_cons; split; [by left|].
      apply Forall_cons; split; [right; exists c; by left|].
      apply Forall_cons; split; [right; exists c; by right|constructor]. }
    split; [done|]. split; [done|]. split; [lia|]. intros _.
    destruct n as [|n].
    + simpl in Htimes. injection Htimes as <-.
      destruct evs; [|simpl in Hlen; lia].
      rewrite Hb1 in Hb'. injection Hb' as <-. exists c. simpl.
      split; [done|]. split; [lia|done].
    + destruct Hlast as (c' & Hc' & Hid' & Hl); [lia|]. exists c'.
      split; [done|]. split; [done|].
      rewrite last_app, Hl. done.
Qed.

Lemma prepare_times_reconnects_witness :
  ∃ self', prepare_times lab_world 2 hpe_prepared = Ok self' ∧
           next_id self' = 3%nat ∧
           length (trace self') = (length (trace hpe_prepared) + 6)%nat.
Proof.
  assert (H : ∃ self', prepare_times lab_world 2 hpe_prepared = Ok self')
    by (eexists; vm_compute; reflexivity).
  destruct H as [self' Hself']. exists self'. split; [exact Hself'|].
  destruct (prepare_times_reconnects lab_world 2 hpe_prepared self'
              (mk_bmc {["IP Address" := "10.0.0.1"]} (Some first_session)))
    as (evs & b' & Htr & Hlen & _ & _ & _ & Hnext & _).
  - reflexivity.
  - exact Hself'.
  - split; [exact Hnext|]. rewrite Htr, length_app, Hlen. reflexivity.
Defined.

(** * Further properties of the single-request fetch *)

(** X21.  What [get_redfish_url] can give back.  A document without an
    "error" key is returned as it is, with no log record.  [None] is
    returned only when the answer of the session is [None] itself.  The
    only exceptions that leave the function are [UnboundLocalError] and
    [AttributeError], whatever the session raised; without a session
    ([redfish_obj] still [None]) it is [UnboundLocalError].  A log record is
    written only when the empty document is returned. *)
Theorem get_redfish_url_results (fetch : option (string -> result pyval))
    (url : string) :
  (∀ get d, fetch = Some get -> get url = Ok (VDict d) -> assoc d "error" = None ->
     get_redfish_url fetch url = (Ok (VDict d), [])) ∧
  ((get_redfish_url fetch url).1 = Ok VNone ->
     ∃ get, fetch = Some get ∧ get url = Ok VNone) ∧
  (∀ e, (get_redfish_url fetch url).1 = Raise e ->
     e = UnboundLocalError ∨ e = AttributeError) ∧
  (fetch = None -> get_redfish_url fetch url = (Raise UnboundLocalError, [])) ∧
  ((get_redfish_url fetch url).2 ≠ [] ->
     (get_redfish_url fetch url).1 = Ok (VDict [])).
Proof.
  split; [|split; [|split; [|split]]].
  - intros get d -> Hget Herr. unfold get_redfish_url, get_redfish_url_try.
    rewrite Hget. destruct d as [|kv d]; [reflexivity|].
    cbn [truthy py_in]. rewrite Herr.
    rewrite bool_decide_eq_false_2 by (by intros [? ?]). reflexivity.
  - unfold get_redfish_url, get_redfish_url_try.
    destruct fetch as [get|]; [|done].
    destruct (get url) as [r| |] eqn:Hget; try done.
    destruct (truthy r) eqn:Ht.
    + destruct (py_in "error" r) as [[]| |]; simpl; try done.
      intros [= ->]. done.
    + simpl. intros [= ->]. eauto.
  - intros e. unfold get_redfish_url, get_redfish_url_try.
    destruct fetch as [get|]; [|simpl; intros [= <-]; by left].
    destruct (get url) as [r| |]; simpl; try done.
    + destruct (truthy r); [|done].
      destruct (py_in "error" r) as [[]| |]; simpl; try done.
      intros [= <-]. by right.
    + intros [= <-]. by left.
  - intros ->. reflexivity.
  - unfold get_redfish_url, get_redfish_url_try.
    destruct fetch as [get|]; [|done].
    destruct (get url) as [r| |]; simpl; try done.
    destruct (truthy r); [|done].
    destruct (py_in "error" r) as [[]| |]; simpl; done.
Qed.

Lemma get_redfish_url_results_witness :
  get_redfish_url (Some (fun _ => Ok (VDict [("Fans", VList [])]))) "/redfish/v1/Chassis/1/Thermal"
  = (Ok (VDict [("Fans", VList [])]), []) ∧
  get_redfish_url None "/redfish/v1/Chassis/1/Thermal" = (Raise UnboundLocalError, []).
Proof.
  split.
  - destruct (get_redfish_url_results
                (Some (fun _ => Ok (VDict [("Fans", VList [])])))
                "/redfish/v1/Chassis/1/Thermal") as [Hdoc _].
    by apply (Hdoc (fun _ => Ok (VDict [("Fans", VList [])]))).
  - destruct (get_redfish_url_results None "/redfish/v1/Chassis/1/Thermal")
      as (_ & _ & _ & Hnone & _).
    by apply Hnone.
Defined.

(** * The exceptions of [parse_cmd] *)

Lemma bytes_split1_contains sep s :
  bytes_contains sep s = true -> ∃ k v, bytes_split1 sep s = [k; v].
Proof.
  induction s as [|c s IH]; simpl.
  - destruct (after_prefix sep "") as [rest|]; [eauto|done].
  - destruct (after_prefix sep (String c s)) as [rest|]; [eauto|].
    intros Hc. destruct (IH Hc) as (k & v & ->). eauto.
Qed.

Lemma row_binding_raises row e :
  row_binding row = Raise e -> e = UnicodeDecodeError.
Proof.
  unfold row_binding. destruct (bytes_contains ": " row) eqn:Hc; [|done].
  destruct (bytes_split1_contains _ _ Hc) as (k & v & ->).
  destruct (negb _); [|done]. unfold decode.
  destruct (utf8_ok (strip v) []); simpl; [|congruence].
  destruct (utf8_ok (strip k) []); simpl; congruence.
Qed.

Lemma row_binding_not_fatal row m : row_binding row ≠ Fatal m.
Proof.
  unfold row_binding. destruct (bytes_contains ": " row) eqn:Hc; [|done].
  destruct (bytes_split1_contains _ _ Hc) as (k & v & ->).
  destruct (negb _); [|done]. unfold decode.
  destruct (utf8_ok (strip v) []); simpl; [|done].
  destruct (utf8_ok (strip k) []); simpl; done.
Qed.

Lemma handled_outcome rows :
  (handled rows).2 = Ok tt ∨ (handled rows).2 = Raise UnicodeDecodeError.
Proof.
  induction rows as [|row rows IH]; simpl; [by left|].
  destruct (row_binding row) as [b|e|f] eqn:Eb; simpl.
  - exact IH.
  - right. by rewrite (row_binding_raises _ _ Eb).
  - by destruct (row_binding_not_fatal row f).
Qed.

(** X22.  [parse_cmd] returns its mapping or raises [UnicodeDecodeError]:
    the unpacking of [row.split(b": ", 1)] into key and value cannot fail,
    since the row is known to hold the separator. *)
Theorem parse_cmd_raises_only_decode_errors (stdout stderr : string)
    (m : gmap string string) :
  (parse_cmd stdout stderr m).2 = Ok (parse_cmd stdout stderr m).1 ∨
  (parse_cmd stdout stderr m).2 = Raise UnicodeDecodeError.
Proof.
  unfold parse_cmd. rewrite parse_rows_handled.
  destruct (handled_outcome (bytes_split_nl stdout)) as [-> | ->]; simpl; eauto.
Qed.

Lemma is_ascii_utf8_ok s : is_ascii s = true -> utf8_ok s [] = true.
Proof.
  induction s as [|c s IH]; simpl; [done|].
  intros [Hc Hs]%andb_prop. rewrite Hc. by apply IH.
Qed.

Lemma is_ascii_lstrip s : is_ascii s = true -> is_ascii (lstrip s) = true.
Proof.
  induction s as [|c s IH]; simpl; [done|].
  intros Hs. destruct (is_bspace c); [|done].
  apply andb_prop in Hs as [_ Hs]. by apply IH.
Qed.

Lemma is_ascii_rstrip s : is_ascii s = true -> is_ascii (rstrip s) = true.
Proof.
  induction s as [|c s IH]; simpl; [done|].
  intros [Hc Hs]%andb_prop. specialize (IH Hs).
  destruct (rstrip s) as [|c' r]; simpl in *.
  - destruct (is_bspace c); simpl; [done|]. by rewrite Hc.
  - by rewrite Hc.
Qed.

Lemma is_ascii_strip s : is_ascii s = true -> is_ascii (strip s) = true.
Proof. intros Hs. by apply is_ascii_rstrip, is_ascii_lstrip. Qed.

Lemma is_ascii_after_prefix p s rest :
  after_prefix p s = Some rest -> is_ascii s = true -> is_ascii rest = true.
Proof.
  revert s. induction p as [|a p IH]; intros s; simpl.
  - by intros [= ->].
  - destruct s as [|c s]; [done|]. destruct (Ascii.eqb a c); [|done].
    intros Hr [_ Hs]%andb_prop. by eapply IH.
Qed.

Lemma is_ascii_split1 sep s k v :
  bytes_split1 sep s = [k; v] -> is_ascii s = true ->
  is_ascii k = true ∧ is_ascii v = true.
Proof.
  revert k. induction s as [|c s IH]; intros k; simpl.
  - destruct (after_prefix sep "") as [rest|] eqn:Ep; [|done].
    intros [= <- <-] _. split; [done|]. by eapply is_ascii_after_prefix.
  - destruct (after_prefix sep (String c s)) as [rest|] eqn:Ep.
    + intros [= <- <-] Hs. split; [done|]. by eapply is_ascii_after_prefix.
    + destruct (bytes_split1 sep s) as [|k' [|v' [|? ?]]] eqn:Es; try done.
      intros [= <- <-] [Hc Hs]%andb_prop.
      destruct (IH k' eq_refl Hs) as [Hk Hv]. simpl. by rewrite Hc, Hk.
Qed.

Lemma is_ascii_rows s :
  is_ascii s = true -> Forall (fun row => is_ascii row = true) (bytes_split_nl s).
Proof.
  induction s as [|c s IH]; simpl; [by repeat constructor|].
  intros [Hc Hs]%andb_prop. specialize (IH Hs).
  destruct (code c =? 10); [by constructor|].
  destruct (bytes_split_nl s) as [|r rs]; [by repeat constructor; simpl; rewrite Hc|].
  apply Forall_cons in IH as [Hr Hrs]. constructor; [|done].
  simpl. by rewrite Hc, Hr.
Qed.

Lemma row_binding_ascii row :
  is_ascii row = true -> row_binding row = Ok (row_kv row).
Proof.
  intros Hrow. unfold row_binding, row_kv.
  destruct (bytes_contains ": " row) eqn:Hc; [|done].
  destruct (bytes_split1_contains _ _ Hc) as (k & v & Hs). rewrite Hs.
  destruct (is_ascii_split1 _ _ _ _ Hs Hrow) as [Hk Hv].
  destruct (negb _); [|done]. unfold decode.
  rewrite !is_ascii_utf8_ok by (by apply is_ascii_strip). reflexivity.
Qed.

(** X23.  On an output made of ASCII bytes only, [parse_cmd] does not
    raise: it returns the mapping with the binding of every row stored. *)
Theorem parse_cmd_ascii_returns (stdout stderr : string) (m : gmap string string) :
  is_ascii stdout = true ->
  parse_cmd stdout stderr m
  = (store_all (omap row_kv (bytes_split_nl stdout)) m,
     Ok (store_all (omap row_kv (bytes_split_nl stdout)) m)).
Proof.
  intros Hs. unfold parse_cmd. rewrite parse_rows_handled.
  assert (Hh : handled (bytes_split_nl stdout)
               = (omap row_kv (bytes_split_nl stdout), Ok tt)).
  { pose proof (is_ascii_rows _ Hs) as Hrows.
    induction Hrows as [|row rows Hrow _ IH]; [done|].
    cbn [handled omap list_omap]. rewrite (row_binding_ascii _ Hrow), IH.
    simpl. by destruct (row_kv row). }
  rewrite Hh. reflexivity.
Qed.

Lemma parse_cmd_ascii_returns_witness :
  (parse_cmd lan_print "" ∅).2 = Ok (parse_cmd lan_print "" ∅).1.
Proof.
  rewrite (parse_cmd_ascii_returns lan_print "" ∅); reflexivity.
Defined.
